(** * PyCO2SYS: pH-scale conversion, option codes, input flattening and the
      derivative dispatch of the uncertainty engine

    A shallow embedding of [PyCO2SYS/convert.py] and of
    [PyCO2SYS/uncertainty.py].

    Conventions of the embedding.
    - A floating-point value is a real number or not-a-number ([fnum]).
      Arithmetic is exact on finite values; rounding and signed infinities
      are not represented: a division by zero and a logarithm of a
      non-positive number yield [NaN], and [NaN] is absorbing.
    - A NumPy array of [npts] elements that is only combined elementwise
      ([where], [&], arithmetic) is its element function on indices
      ([arr]); a scalar operand broadcasts as a constant function.
    - Where the sizes of arrays matter ([_flattenfirst]), an array is the
      list of its ravelled elements, a scalar being an array of size 1.
    - A Python exception is a value of [exn]; fallible code returns
      [result].
    - Where rounding decides a property, the same code is run on binary64
      numbers ([binary64], [anyarith]). *)

From Stdlib Require Import PrimFloat.
From Stdlib Require Import Reals Lra Lia ZArith List Bool String.
Import ListNotations.

#[local] Set Warnings "-inexact-float".

(** ** Floating-point values *)

Inductive fnum : Type :=
| Fin (x : R)
| NaN.

Definition lift2 (op : R -> R -> R) (a b : fnum) : fnum :=
  match a, b with
  | Fin x, Fin y => Fin (op x y)
  | _, _ => NaN
  end.

Definition fadd : fnum -> fnum -> fnum := lift2 Rplus.
Definition fsub : fnum -> fnum -> fnum := lift2 Rminus.
Definition fmul : fnum -> fnum -> fnum := lift2 Rmult.

Definition fdiv (a b : fnum) : fnum :=
  match a, b with
  | Fin x, Fin y => if Req_dec_T y 0 then NaN else Fin (x / y)
  | _, _ => NaN
  end.

Definition Rlog10 (x : R) : R := (ln x / ln 10)%R.

(** [np.log10] *)
Definition flog10 (a : fnum) : fnum :=
  match a with
  | Fin x => if Rlt_dec 0 x then Fin (Rlog10 x) else NaN
  | NaN => NaN
  end.

Declare Scope fnum_scope.
Delimit Scope fnum_scope with fl.
Bind Scope fnum_scope with fnum.
Infix "+" := fadd : fnum_scope.
Infix "-" := fsub : fnum_scope.
Infix "*" := fmul : fnum_scope.
Infix "/" := fdiv : fnum_scope.

Definition f0 : fnum := Fin 0.
Definition f1 : fnum := Fin 1.

(** ** Exceptions *)

Inductive exn : Type :=
| AssertionError (msg : option string)
| KeyError
| ValueError.

Inductive result (A : Type) : Type :=
| Ok (a : A)
| Raise (e : exn).
Arguments Ok {A} a.
Arguments Raise {A} e.

Definition bind {A B : Type} (r : result A) (k : A -> result B) : result B :=
  match r with
  | Ok a => k a
  | Raise e => Raise e
  end.

Notation "x <- c ;; k" := (bind c (fun x => k))
  (at level 61, c at next level, right associativity).

(** [assert cond, msg] *)
Definition assert_ (cond : bool) (msg : option string) : result unit :=
  if cond then Ok tt else Raise (AssertionError msg).

(** ** Elementwise arrays *)

Definition arr (T : Type) : Type := nat -> T.

Definition full {T : Type} (v : T) : arr T := fun _ => v.

(** [np.where(c, a, b)] *)
Definition where_ {T : Type} (c : arr bool) (a b : arr T) : arr T :=
  fun i => if c i then a i else b i.

(** [np.any] over an array of [npts] elements *)
Definition np_any (npts : nat) (c : arr bool) : bool :=
  existsb c (seq 0 npts).

Definition aeq (a : arr Z) (k : Z) : arr bool := fun i => Z.eqb (a i) k.

(** [np.isin(a, ks)] *)
Definition isin (a : arr Z) (ks : list Z) : arr bool :=
  fun i => existsb (Z.eqb (a i)) ks.

Definition aand (c d : arr bool) : arr bool := fun i => c i && d i.

Definition amap2 (op : fnum -> fnum -> fnum) (a b : arr fnum) : arr fnum :=
  fun i => op (a i) (b i).

(** ** convert.py: pH-scale conversion factors *)

Module convert.

Record Totals : Type := mkTotals {
  TSO4 : arr fnum;
  TF : arr fnum
}.

Record Equilibria : Type := mkEquilibria {
  KSO4 : arr fnum;
  KF : arr fnum;
  fH : arr fnum
}.

Section Factors.
Variables (totals : Totals) (equilibria : Equilibria).

Definition free2tot : arr fnum :=
  fun i => (f1 + TSO4 totals i / KSO4 equilibria i)%fl.

Definition free2sws : arr fnum :=
  fun i => (f1 + TSO4 totals i / KSO4 equilibria i
               + TF totals i / KF equilibria i)%fl.

Definition sws2free : arr fnum := fun i => (f1 / free2sws i)%fl.

Definition sws2tot : arr fnum := fun i => (sws2free i * free2tot i)%fl.

Definition tot2free : arr fnum := fun i => (f1 / free2tot i)%fl.

Definition tot2sws : arr fnum := fun i => (f1 / sws2tot i)%fl.

(** [pH2allscales] returns [(pHtot, pHsws, pHfree, pHNBS)]. *)
Definition pH2allscales (pH : arr fnum) (pHScale : arr Z)
  : arr fnum * arr fnum * arr fnum * arr fnum :=
  let FREEtoTOT := free2tot in
  let SWStoTOT := sws2tot in
  let factor := full NaN in
  let factor := where_ (aeq pHScale 1) (full f0) factor in
  let factor := where_ (aeq pHScale 2) (fun i => flog10 (SWStoTOT i)) factor in
  let factor := where_ (aeq pHScale 3) (fun i => flog10 (FREEtoTOT i)) factor in
  let factor :=
    where_ (aeq pHScale 4)
           (fun i => flog10 (SWStoTOT i / fH equilibria i)%fl) factor in
  let pHtot := amap2 fsub pH factor in
  let pHNBS :=
    amap2 fadd pHtot (fun i => flog10 (SWStoTOT i / fH equilibria i)%fl) in
  let pHfree := amap2 fadd pHtot (fun i => flog10 (FREEtoTOT i)) in
  let pHsws := amap2 fadd pHtot (fun i => flog10 (SWStoTOT i)) in
  (pHtot, pHsws, pHfree, pHNBS).

End Factors.

Definition pHtot_of (r : arr fnum * arr fnum * arr fnum * arr fnum) :=
  let '(t, _, _, _) := r in t.
Definition pHsws_of (r : arr fnum * arr fnum * arr fnum * arr fnum) :=
  let '(_, s, _, _) := r in s.
Definition pHfree_of (r : arr fnum * arr fnum * arr fnum * arr fnum) :=
  let '(_, _, f, _) := r in f.
Definition pHNBS_of (r : arr fnum * arr fnum * arr fnum * arr fnum) :=
  let '(_, _, _, n) := r in n.

(** *** Legacy option codes and input flattening *)

(** The dictionaries [only2KSO4] and [only2BORON]; a missing key raises
    [KeyError]. *)
Definition only2KSO4 (K : Z) : result Z :=
  match K with
  | 1 => Ok 1 | 2 => Ok 2 | 3 => Ok 1 | 4 => Ok 2
  | _ => Raise KeyError
  end%Z.

Definition only2BORON (K : Z) : result Z :=
  match K with
  | 1 => Ok 1 | 2 => Ok 1 | 3 => Ok 2 | 4 => Ok 2
  | _ => Raise KeyError
  end%Z.

(** The dictionary [pair2one]. *)
Definition pair2one (pair : Z * Z) : result Z :=
  match pair with
  | (1, 1) => Ok 1 | (2, 1) => Ok 2 | (1, 2) => Ok 3 | (2, 2) => Ok 4
  | _ => Raise KeyError
  end%Z.

(** A list comprehension over a fallible body stops at the first
    exception. *)
Fixpoint mapM {A B : Type} (f : A -> result B) (l : list A)
  : result (list B) :=
  match l with
  | [] => Ok []
  | x :: t => y <- f x ;; ys <- mapM f t ;; Ok (y :: ys)
  end.

(** [options_old2new]: the argument is the ravelled [KSO4CONSTANTS], a
    scalar being wrapped into an array of one element. *)
Definition options_old2new (KSO4CONSTANTS : list Z)
  : result (list Z * list Z) :=
  KSO4CONSTANT <- mapM only2KSO4 KSO4CONSTANTS ;;
  BORON <- mapM only2BORON KSO4CONSTANTS ;;
  Ok (KSO4CONSTANT, BORON).

Definition flatten_msg : string :=
  "Inputs must all be the same length as each other or of length 1.".

(** [np.max] of an array of sizes; the empty array has no maximum. *)
Definition np_max (l : list nat) : result nat :=
  match l with
  | [] => Raise ValueError
  | _ :: _ => Ok (list_max l)
  end.

(** [np.unique]: only the number of distinct elements is used below, which
    the order of the result does not change. *)
Definition unique (l : list nat) : list nat := nodup Nat.eq_dec l.

(** [_flattenfirst(args, dtype)]; [astype] is the conversion to [dtype]. *)
Definition _flattenfirst {T U : Type} (astype : T -> U)
    (args : list (list T)) : result (list (list U) * nat) :=
  let arglengths := map (@List.length T) args in
  _ <- assert_
         (List.length (unique (filter (fun n => negb (Nat.eqb n 1)) arglengths))
            <=? 1)%nat
         (Some flatten_msg) ;;
  npts <- np_max arglengths ;;
  Ok (map (fun arg =>
             match arg with
             | [x] => repeat (astype x) npts
             | _ => map astype arg
             end) args,
      npts).

(** [_flattenafter(args, npts, dtype)] *)
Definition _flattenafter {T U : Type} (astype : T -> U)
    (args : list (list T)) (npts : nat) : result (list (list U)) :=
  let arglengths := map (@List.length T) args in
  _ <- assert_
         (forallb (fun n => Nat.eqb n 1 || Nat.eqb n npts) arglengths)
         (Some flatten_msg) ;;
  Ok (map (fun arg =>
             match arg with
             | [x] => repeat (astype x) npts
             | _ => map astype arg
             end) args).

(** [options_new2old]: [zip] stops at the shorter of its arguments. *)
Definition options_new2old (KSO4CONSTANT BORON : list Z) : result (list Z) :=
  r <- _flattenfirst (fun z : Z => z) [KSO4CONSTANT; BORON] ;;
  match fst r with
  | [KSO4CONSTANT'; BORON'] => mapM pair2one (combine KSO4CONSTANT' BORON')
  | _ => Raise ValueError
  end.

(** [_flattentext(args, npts)] *)
Definition _flattentext {T : Type} (args : list (list T)) (npts : nat)
  : result (list (list T)) :=
  let arglengths := map (@List.length T) args in
  _ <- assert_
         (forallb (fun n => Nat.eqb n 1 || Nat.eqb n npts) arglengths)
         (Some flatten_msg) ;;
  Ok (map (fun arg =>
             match arg with
             | [x] => repeat x npts
             | _ => arg
             end) args).

(** *** The activity coefficient fH *)

(** [Sal ** 2] is the product of [Sal] with itself. *)
Definition fH_PTBO87 (TempK Sal : arr fnum) : arr fnum :=
  fun i =>
    (Fin 1.29 - Fin 0.00204 * TempK i
     + (Fin 0.00046 - Fin 0.00000148 * TempK i) * (Sal i * Sal i))%fl.

Definition fH_TWB82 (TempK Sal : arr fnum) : arr fnum :=
  fun i =>
    (Fin 1.2948 - Fin 0.002036 * TempK i
     + (Fin 0.0004607 - Fin 0.000001475 * TempK i) * (Sal i * Sal i))%fl.

End convert.

(** The sizes of the arguments, and "more than one distinct size other
    than 1". *)
Definition sizes {T : Type} (args : list (list T)) : list nat :=
  map (@List.length T) args.

Definition mismatched {T : Type} (args : list (list T)) : Prop :=
  exists a b,
    In a args /\ In b args /\
    List.length a <> 1%nat /\ List.length b <> 1%nat /\
    List.length a <> List.length b.

(** An argument and what it is flattened to: an argument of size 1 is
    filled to [npts] elements, any other is converted as it is. *)
Definition broadcast_of {T U : Type} (astype : T -> U) (npts : nat)
    (arg : list T) (out : list U) : Prop :=
  (forall x, arg = [x] -> out = repeat (astype x) npts) /\
  (List.length arg <> 1%nat -> out = map astype arg).

(** ** uncertainty.py *)

Module uncertainty.

(** *** Validation of the requested derivatives ([inputs]) *)

(** [grads_of] and [grads_wrt] are a single name or a list of names. *)
Inductive pyarg : Type :=
| Str (s : string)
| Lst (l : list string).

Definition can_grad_wrt : list string :=
  ["PAR1"; "PAR2"; "SAL"; "TEMPIN"; "TEMPOUT"; "PRESIN"; "PRESOUT";
   "SI"; "PO4"; "NH3"; "H2S"]%string.

Definition mem (s : string) (l : list string) : bool :=
  existsb (String.eqb s) l.

(** [a in l] for a list [l] of strings: a list is equal to no string. *)
Definition py_in (a : pyarg) (l : list string) : bool :=
  match a with
  | Str s => mem s l
  | Lst _ => false
  end.

(** [np_all(isin(names, allowed))] *)
Definition all_isin (names allowed : list string) : bool :=
  forallb (fun s => mem s allowed) names.

Section Inputs.
(** [engine.gradables], and the loops that follow the validation (they
    call [engine._CO2SYS] and [scipy.misc.derivative]), are not part of
    the sources at hand: they are parameters. *)
Variable gradables : list string.
Variable D : Type.
Variable derivatives : list string -> list string -> D.

Definition inputs (grads_of grads_wrt : pyarg) : result D :=
  grads_wrt <-
    match grads_wrt with
    | Str w =>
        _ <- assert_ (String.eqb w "all" || py_in grads_of can_grad_wrt)
               None ;;
        if String.eqb w "all" then Ok can_grad_wrt else Ok [w]
    | Lst l => Ok l
    end ;;
  _ <- assert_ (all_isin grads_wrt can_grad_wrt)
         (Some "Invalid `grads_wrt` requested."%string) ;;
  grads_of <-
    match grads_of with
    | Str o =>
        _ <- assert_ (String.eqb o "all" || mem o gradables) None ;;
        if String.eqb o "all" then Ok gradables else Ok [o]
    | Lst l => Ok l
    end ;;
  _ <- assert_ (all_isin grads_of gradables)
         (Some "Invalid `grads_of` requested."%string) ;;
  Ok (derivatives grads_wrt grads_of).

End Inputs.

(** *** Derivatives of the core variables ([dcore_dparX__parY]) *)

(** The keys of the returned dictionary. *)
Inductive var : Type := TA | TC | PH | PC | FC | CARB | HCO3 | CO2.

Definition var_eqb (a b : var) : bool :=
  match a, b with
  | TA, TA | TC, TC | PH, PH | PC, PC
  | FC, FC | CARB, CARB | HCO3, HCO3 | CO2, CO2 => true
  | _, _ => false
  end.

(** The arrays [dTA_dX__Y], ..., [dCO2_dX__Y], by the key under which they
    are returned. *)
Definition St : Type := var -> arr fnum.

Definition set (v : var) (a : arr fnum) (s : St) : St :=
  fun w => if var_eqb w v then a else s w.

(** Two states that agree at the index [i]. *)
Definition eq_at (i : nat) (s s' : St) : Prop := forall v, s v i = s' v i.

(** A run of statements [dV_dX__Y = where(c, a, dV_dX__Y)], one for each
    [(V, a)] of the list. *)
Definition wheres (c : arr bool) (l : list (var * arr fnum)) (s : St) : St :=
  fold_left (fun s va => set (fst va) (where_ c (snd va) (s (fst va))) s) l s.

(** A run of statements [dV_dX__Y = where(c, op(dV_dX__Y), dV_dX__Y)]. *)
Definition rescale (c : arr bool) (op : arr fnum -> arr fnum)
    (vs : list var) (s : St) : St :=
  fold_left (fun s v => set v (where_ c (op (s v)) (s v)) s) vs s.

(** The values of the [egrad] calls: elementwise gradients of the
    closed-form relations of [solve/get.py] at the solved state. Neither
    those relations nor the differentiation library are part of the
    sources at hand, so the gradients are a parameter of the function. *)
Record Grads : Type := mkGrads {
  dTA_dPH__TC : arr fnum;
  dFC_dPH__TC : arr fnum;
  dCARB_dPH__TC : arr fnum;
  dHCO3_dPH__TC : arr fnum;
  dTC_dPH__TA : arr fnum;
  dFC_dPH__TA : arr fnum;
  dCARB_dPH__TA : arr fnum;
  dHCO3_dPH__TA : arr fnum;
  dTC_dPH__CARB : arr fnum;
  dTA_dPH__CARB : arr fnum;
  dFC_dPH__CARB : arr fnum;
  dHCO3_dPH__CARB : arr fnum;
  dTC_dPH__HCO3 : arr fnum;
  dTA_dPH__HCO3 : arr fnum;
  dFC_dPH__HCO3 : arr fnum;
  dCARB_dPH__HCO3 : arr fnum;
  dTA_dPH__FC : arr fnum;
  dTC_dPH__FC : arr fnum;
  dCARB_dPH__FC : arr fnum;
  dHCO3_dPH__FC : arr fnum;
  dTC_dTA__PH : arr fnum;
  dFC_dTA__PH : arr fnum;
  dCARB_dTA__PH : arr fnum;
  dHCO3_dTA__PH : arr fnum;
  dTA_dTC__PH : arr fnum;
  dFC_dTC__PH : arr fnum;
  dCARB_dTC__PH : arr fnum;
  dHCO3_dTC__PH : arr fnum;
  dTA_dFC__PH : arr fnum;
  dTC_dFC__PH : arr fnum;
  dCARB_dFC__PH : arr fnum;
  dHCO3_dFC__PH : arr fnum;
  dTA_dFC__CARB : arr fnum;
  dTC_dFC__CARB : arr fnum;
  dPH_dFC__CARB : arr fnum;
  dHCO3_dFC__CARB : arr fnum;
  dTA_dFC__HCO3 : arr fnum;
  dTC_dFC__HCO3 : arr fnum;
  dPH_dFC__HCO3 : arr fnum;
  dCARB_dFC__HCO3 : arr fnum;
  dTA_dCARB__PH : arr fnum;
  dTC_dCARB__PH : arr fnum;
  dFC_dCARB__PH : arr fnum;
  dHCO3_dCARB__PH : arr fnum;
  dTA_dCARB__FC : arr fnum;
  dTC_dCARB__FC : arr fnum;
  dPH_dCARB__FC : arr fnum;
  dHCO3_dCARB__FC : arr fnum;
  dTA_dCARB__HCO3 : arr fnum;
  dTC_dCARB__HCO3 : arr fnum;
  dPH_dCARB__HCO3 : arr fnum;
  dFC_dCARB__HCO3 : arr fnum;
  dTC_dHCO3__PH : arr fnum;
  dTA_dHCO3__PH : arr fnum;
  dFC_dHCO3__PH : arr fnum;
  dCARB_dHCO3__PH : arr fnum;
  dTA_dHCO3__FC : arr fnum;
  dTC_dHCO3__FC : arr fnum;
  dPH_dHCO3__FC : arr fnum;
  dCARB_dHCO3__FC : arr fnum;
  dTA_dHCO3__CARB : arr fnum;
  dTC_dHCO3__CARB : arr fnum;
  dPH_dHCO3__CARB : arr fnum;
  dFC_dHCO3__CARB : arr fnum
}.

Record Constants : Type := mkConstants {
  K0 : arr fnum;
  FugFac : arr fnum
}.

Section Dcore.
Variable npts : nat.
Variables parXtype parYtype : arr Z.
Variable Ks : Constants.
Variable g : Grads.

(** [if np_any(c): ...] *)
Definition guard (c : arr bool) (f : St -> St) (s : St) : St :=
  if np_any npts c then f s else s.

(** The statements under [X = ...; if np_any(X):]: the derivative of the
    variable [own] is set to 1 where [X], then for each [(Y, l)] the
    statements [l] under [XY = X & Y; if np_any(XY):]. *)
Definition block (X : arr bool) (own : var)
    (cases : list (arr bool * list (var * arr fnum))) : St -> St :=
  guard X (fun s =>
    fold_left
      (fun s yl => guard (aand X (fst yl)) (wheres (aand X (fst yl)) (snd yl)) s)
      cases
      (set own (where_ X (full f1) (s own)) s)).

(** Derivatives specific to a single case. Each is bound in the source
    under the condition under which it is used below. *)
Definition dPH_dTA__TC : arr fnum := amap2 fdiv (full f1) (dTA_dPH__TC g).
Definition dFC_dTA__TC : arr fnum := amap2 fdiv (dFC_dPH__TC g) (dTA_dPH__TC g).
Definition dCARB_dTA__TC : arr fnum := amap2 fdiv (dCARB_dPH__TC g) (dTA_dPH__TC g).
Definition dHCO3_dTA__TC : arr fnum := amap2 fdiv (dHCO3_dPH__TC g) (dTA_dPH__TC g).
Definition dTC_dTA__FC : arr fnum := amap2 fdiv (dTC_dPH__FC g) (dTA_dPH__FC g).
Definition dPH_dTA__FC : arr fnum := amap2 fdiv (full f1) (dTA_dPH__FC g).
Definition dCARB_dTA__FC : arr fnum := amap2 fdiv (dCARB_dPH__FC g) (dTA_dPH__FC g).
Definition dHCO3_dTA__FC : arr fnum := amap2 fdiv (dHCO3_dPH__FC g) (dTA_dPH__FC g).
Definition dTC_dTA__CARB : arr fnum := amap2 fdiv (dTC_dPH__CARB g) (dTA_dPH__CARB g).
Definition dPH_dTA__CARB : arr fnum := amap2 fdiv (full f1) (dTA_dPH__CARB g).
Definition dFC_dTA__CARB : arr fnum := amap2 fdiv (dFC_dPH__CARB g) (dTA_dPH__CARB g).
Definition dHCO3_dTA__CARB : arr fnum := amap2 fdiv (dHCO3_dPH__CARB g) (dTA_dPH__CARB g).
Definition dTC_dTA__HCO3 : arr fnum := amap2 fdiv (dTC_dPH__HCO3 g) (dTA_dPH__HCO3 g).
Definition dPH_dTA__HCO3 : arr fnum := amap2 fdiv (full f1) (dTA_dPH__HCO3 g).
Definition dFC_dTA__HCO3 : arr fnum := amap2 fdiv (dFC_dPH__HCO3 g) (dTA_dPH__HCO3 g).
Definition dCARB_dTA__HCO3 : arr fnum := amap2 fdiv (dCARB_dPH__HCO3 g) (dTA_dPH__HCO3 g).
Definition dPH_dTC__TA : arr fnum := amap2 fdiv (full f1) (dTC_dPH__TA g).
Definition dFC_dTC__TA : arr fnum := amap2 fdiv (dFC_dPH__TA g) (dTC_dPH__TA g).
Definition dCARB_dTC__TA : arr fnum := amap2 fdiv (dCARB_dPH__TA g) (dTC_dPH__TA g).
Definition dHCO3_dTC__TA : arr fnum := amap2 fdiv (dHCO3_dPH__TA g) (dTC_dPH__TA g).
Definition dTA_dTC__FC : arr fnum := amap2 fdiv (dTA_dPH__FC g) (dTC_dPH__FC g).
Definition dPH_dTC__FC : arr fnum := amap2 fdiv (full f1) (dTC_dPH__FC g).
Definition dCARB_dTC__FC : arr fnum := amap2 fdiv (dCARB_dPH__FC g) (dTC_dPH__FC g).
Definition dHCO3_dTC__FC : arr fnum := amap2 fdiv (dHCO3_dPH__FC g) (dTC_dPH__FC g).
Definition dTA_dTC__CARB : arr fnum := amap2 fdiv (dTA_dPH__CARB g) (dTC_dPH__CARB g).
Definition dPH_dTC__CARB : arr fnum := amap2 fdiv (full f1) (dTC_dPH__CARB g).
Definition dFC_dTC__CARB : arr fnum := amap2 fdiv (dFC_dPH__CARB g) (dTC_dPH__CARB g).
Definition dHCO3_dTC__CARB : arr fnum := amap2 fdiv (dHCO3_dPH__CARB g) (dTC_dPH__CARB g).
Definition dTA_dTC__HCO3 : arr fnum := amap2 fdiv (dTA_dPH__HCO3 g) (dTC_dPH__HCO3 g).
Definition dPH_dTC__HCO3 : arr fnum := amap2 fdiv (full f1) (dTC_dPH__HCO3 g).
Definition dFC_dTC__HCO3 : arr fnum := amap2 fdiv (dFC_dPH__HCO3 g) (dTC_dPH__HCO3 g).
Definition dCARB_dTC__HCO3 : arr fnum := amap2 fdiv (dCARB_dPH__HCO3 g) (dTC_dPH__HCO3 g).
Definition dTC_dFC__TA : arr fnum := amap2 fdiv (dTC_dPH__TA g) (dFC_dPH__TA g).
Definition dPH_dFC__TA : arr fnum := amap2 fdiv (full f1) (dFC_dPH__TA g).
Definition dCARB_dFC__TA : arr fnum := amap2 fdiv (dCARB_dPH__TA g) (dFC_dPH__TA g).
Definition dHCO3_dFC__TA : arr fnum := amap2 fdiv (dHCO3_dPH__TA g) (dFC_dPH__TA g).
Definition dTA_dFC__TC : arr fnum := amap2 fdiv (dTA_dPH__TC g) (dFC_dPH__TC g).
Definition dPH_dFC__TC : arr fnum := amap2 fdiv (full f1) (dFC_dPH__TC g).
Definition dCARB_dFC__TC : arr fnum := amap2 fdiv (dCARB_dPH__TC g) (dFC_dPH__TC g).
Definition dHCO3_dFC__TC : arr fnum := amap2 fdiv (dHCO3_dPH__TC g) (dFC_dPH__TC g).
Definition dTC_dCARB__TA : arr fnum := amap2 fdiv (dTC_dPH__TA g) (dCARB_dPH__TA g).
Definition dPH_dCARB__TA : arr fnum := amap2 fdiv (full f1) (dCARB_dPH__TA g).
Definition dFC_dCARB__TA : arr fnum := amap2 fdiv (dFC_dPH__TA g) (dCARB_dPH__TA g).
Definition dHCO3_dCARB__TA : arr fnum := amap2 fdiv (dHCO3_dPH__TA g) (dCARB_dPH__TA g).
Definition dTA_dCARB__TC : arr fnum := amap2 fdiv (dTA_dPH__TC g) (dCARB_dPH__TC g).
Definition dPH_dCARB__TC : arr fnum := amap2 fdiv (full f1) (dCARB_dPH__TC g).
Definition dFC_dCARB__TC : arr fnum := amap2 fdiv (dFC_dPH__TC g) (dCARB_dPH__TC g).
Definition dHCO3_dCARB__TC : arr fnum := amap2 fdiv (dHCO3_dPH__TC g) (dCARB_dPH__TC g).
Definition dTC_dHCO3__TA : arr fnum := amap2 fdiv (dTC_dPH__TA g) (dHCO3_dPH__TA g).
Definition dPH_dHCO3__TA : arr fnum := amap2 fdiv (full f1) (dHCO3_dPH__TA g).
Definition dFC_dHCO3__TA : arr fnum := amap2 fdiv (dFC_dPH__TA g) (dHCO3_dPH__TA g).
Definition dCARB_dHCO3__TA : arr fnum := amap2 fdiv (dCARB_dPH__TA g) (dHCO3_dPH__TA g).
Definition dTA_dHCO3__TC : arr fnum := amap2 fdiv (dTA_dPH__TC g) (dHCO3_dPH__TC g).
Definition dPH_dHCO3__TC : arr fnum := amap2 fdiv (full f1) (dHCO3_dPH__TC g).
Definition dFC_dHCO3__TC : arr fnum := amap2 fdiv (dFC_dPH__TC g) (dHCO3_dPH__TC g).
Definition dCARB_dHCO3__TC : arr fnum := amap2 fdiv (dCARB_dPH__TC g) (dHCO3_dPH__TC g).

Definition assign_TA : St -> St :=
  block (aeq parXtype 1) TA
    [ (aeq parYtype 2,
        [ (TC, full f0);
          (PH, dPH_dTA__TC);
          (FC, dFC_dTA__TC);
          (CARB, dCARB_dTA__TC);
          (HCO3, dHCO3_dTA__TC) ]);
      (aeq parYtype 3,
        [ (TC, dTC_dTA__PH g);
          (PH, full f0);
          (FC, dFC_dTA__PH g);
          (CARB, dCARB_dTA__PH g);
          (HCO3, dHCO3_dTA__PH g) ]);
      (isin parYtype [4; 5; 8]%Z,
        [ (TC, dTC_dTA__FC);
          (PH, dPH_dTA__FC);
          (FC, full f0);
          (CARB, dCARB_dTA__FC);
          (HCO3, dHCO3_dTA__FC) ]);
      (aeq parYtype 6,
        [ (TC, dTC_dTA__CARB);
          (PH, dPH_dTA__CARB);
          (FC, dFC_dTA__CARB);
          (CARB, full f0);
          (HCO3, dHCO3_dTA__CARB) ]);
      (aeq parYtype 7,
        [ (TC, dTC_dTA__HCO3);
          (PH, dPH_dTA__HCO3);
          (FC, dFC_dTA__HCO3);
          (CARB, dCARB_dTA__HCO3);
          (HCO3, full f0) ]) ].

Definition assign_TC : St -> St :=
  block (aeq parXtype 2) TC
    [ (aeq parYtype 1,
        [ (TA, full f0);
          (PH, dPH_dTC__TA);
          (FC, dFC_dTC__TA);
          (CARB, dCARB_dTC__TA);
          (HCO3, dHCO3_dTC__TA) ]);
      (aeq parYtype 3,
        [ (TA, dTA_dTC__PH g);
          (PH, full f0);
          (FC, dFC_dTC__PH g);
          (CARB, dCARB_dTC__PH g);
          (HCO3, dHCO3_dTC__PH g) ]);
      (isin parYtype [4; 5; 8]%Z,
        [ (TA, dTA_dTC__FC);
          (PH, dPH_dTC__FC);
          (FC, full f0);
          (CARB, dCARB_dTC__FC);
          (HCO3, dHCO3_dTC__FC) ]);
      (aeq parYtype 6,
        [ (TA, dTA_dTC__CARB);
          (PH, dPH_dTC__CARB);
          (FC, dFC_dTC__CARB);
          (CARB, full f0);
          (HCO3, dHCO3_dTC__CARB) ]);
      (aeq parYtype 7,
        [ (TA, dTA_dTC__HCO3);
          (PH, dPH_dTC__HCO3);
          (FC, dFC_dTC__HCO3);
          (CARB, dCARB_dTC__HCO3);
          (HCO3, full f0) ]) ].

Definition assign_PH : St -> St :=
  block (aeq parXtype 3) PH
    [ (aeq parYtype 1,
        [ (TA, full f0);
          (TC, dTC_dPH__TA g);
          (FC, dFC_dPH__TA g);
          (CARB, dCARB_dPH__TA g);
          (HCO3, dHCO3_dPH__TA g) ]);
      (aeq parYtype 2,
        [ (TA, dTA_dPH__TC g);
          (TC, full f0);
          (FC, dFC_dPH__TC g);
          (CARB, dCARB_dPH__TC g);
          (HCO3, dHCO3_dPH__TC g) ]);
      (isin parYtype [4; 5; 8]%Z,
        [ (TA, dTA_dPH__FC g);
          (TC, dTC_dPH__FC g);
          (FC, full f0);
          (CARB, dCARB_dPH__FC g);
          (HCO3, dHCO3_dPH__FC g) ]);
      (aeq parYtype 6,
        [ (TA, dTA_dPH__CARB g);
          (TC, dTC_dPH__CARB g);
          (FC, dFC_dPH__CARB g);
          (CARB, full f0);
          (HCO3, dHCO3_dPH__CARB g) ]);
      (aeq parYtype 7,
        [ (TA, dTA_dPH__HCO3 g);
          (TC, dTC_dPH__HCO3 g);
          (FC, dFC_dPH__HCO3 g);
          (CARB, dCARB_dPH__HCO3 g);
          (HCO3, full f0) ]) ].

Definition assign_FC : St -> St :=
  block (isin parXtype [4; 5; 8]%Z) FC
    [ (aeq parYtype 1,
        [ (TA, full f0);
          (TC, dTC_dFC__TA);
          (PH, dPH_dFC__TA);
          (CARB, dCARB_dFC__TA);
          (HCO3, dHCO3_dFC__TA) ]);
      (aeq parYtype 2,
        [ (TA, dTA_dFC__TC);
          (TC, full f0);
          (PH, dPH_dFC__TC);
          (CARB, dCARB_dFC__TC);
          (HCO3, dHCO3_dFC__TC) ]);
      (aeq parYtype 3,
        [ (TA, dTA_dFC__PH g);
          (TC, dTC_dFC__PH g);
          (PH, full f0);
          (CARB, dCARB_dFC__PH g);
          (HCO3, dHCO3_dFC__PH g) ]);
      (aeq parYtype 6,
        [ (TA, dTA_dFC__CARB g);
          (TC, dTC_dFC__CARB g);
          (PH, dPH_dFC__CARB g);
          (CARB, full f0);
          (HCO3, dHCO3_dFC__CARB g) ]);
      (aeq parYtype 7,
        [ (TA, dTA_dFC__HCO3 g);
          (TC, dTC_dFC__HCO3 g);
          (PH, dPH_dFC__HCO3 g);
          (CARB, dCARB_dFC__HCO3 g);
          (HCO3, full f0) ]) ].

Definition assign_CARB : St -> St :=
  block (aeq parXtype 6) CARB
    [ (aeq parYtype 1,
        [ (TA, full f0);
          (TC, dTC_dCARB__TA);
          (PH, dPH_dCARB__TA);
          (FC, dFC_dCARB__TA);
          (HCO3, dHCO3_dCARB__TA) ]);
      (aeq parYtype 2,
        [ (TA, dTA_dCARB__TC);
          (TC, full f0);
          (PH, dPH_dCARB__TC);
          (FC, dFC_dCARB__TC);
          (HCO3, dHCO3_dCARB__TC) ]);
      (aeq parYtype 3,
        [ (TA, dTA_dCARB__PH g);
          (TC, dTC_dCARB__PH g);
          (PH, full f0);
          (FC, dFC_dCARB__PH g);
          (HCO3, dHCO3_dCARB__PH g) ]);
      (isin parYtype [4; 5; 8]%Z,
        [ (TA, dTA_dCARB__FC g);
          (TC, dTC_dCARB__FC g);
          (PH, dPH_dCARB__FC g);
          (FC, full f0);
          (HCO3, dHCO3_dCARB__FC g) ]);
      (aeq parYtype 7,
        [ (TA, dTA_dCARB__HCO3 g);
          (TC, dTC_dCARB__HCO3 g);
          (PH, dPH_dCARB__HCO3 g);
          (FC, dFC_dCARB__HCO3 g);
          (HCO3, full f0) ]) ].

Definition assign_HCO3 : St -> St :=
  block (aeq parXtype 7) HCO3
    [ (aeq parYtype 1,
        [ (TA, full f0);
          (TC, dTC_dHCO3__TA);
          (PH, dPH_dHCO3__TA);
          (FC, dFC_dHCO3__TA);
          (CARB, dCARB_dHCO3__TA) ]);
      (aeq parYtype 2,
        [ (TA, dTA_dHCO3__TC);
          (TC, full f0);
          (PH, dPH_dHCO3__TC);
          (FC, dFC_dHCO3__TC);
          (CARB, dCARB_dHCO3__TC) ]);
      (aeq parYtype 3,
        [ (TA, dTA_dHCO3__PH g);
          (TC, dTC_dHCO3__PH g);
          (PH, full f0);
          (FC, dFC_dHCO3__PH g);
          (CARB, dCARB_dHCO3__PH g) ]);
      (isin parYtype [4; 5; 8]%Z,
        [ (TA, dTA_dHCO3__FC g);
          (TC, dTC_dHCO3__FC g);
          (PH, dPH_dHCO3__FC g);
          (FC, full f0);
          (CARB, dCARB_dHCO3__FC g) ]);
      (aeq parYtype 6,
        [ (TA, dTA_dHCO3__CARB g);
          (TC, dTC_dHCO3__CARB g);
          (PH, dPH_dHCO3__CARB g);
          (FC, dFC_dHCO3__CARB g);
          (CARB, full f0) ]) ].

Definition all_vars : list var := [TA; TC; PH; PC; FC; CARB; HCO3; CO2].

(** The six core derivatives, before the pCO2 and CO2(aq) updates. *)
Definition core_derivatives : St :=
  (* Preallocate empty arrays for derivatives *)
  let s := fun _ : var => full NaN in
  (* Assign derivatives *)
  let s := assign_TA s in
  let s := assign_TC s in
  let s := assign_PH s in
  let s := assign_FC s in
  let s := assign_CARB s in
  let s := assign_HCO3 s in
  s.

Definition dcore_dparX__parY : St :=
  let s := core_derivatives in
  (* Get pCO2 and CO2(aq) derivatives from fCO2 *)
  let s := set PC (amap2 fdiv (s FC) (FugFac Ks)) s in
  let s := set CO2 (amap2 fmul (s FC) (K0 Ks)) s in
  (* Update values where parX or parY were pCO2 or CO2(aq); the tests are
   the builtin [any], which on an array is [np_any] *)
  let X := aeq parXtype 4 in
  let s :=
    guard X (rescale X (fun d => amap2 fmul d (FugFac Ks)) all_vars) s in
  let X := aeq parXtype 8 in
  let s :=
    guard X (rescale X (fun d => amap2 fdiv d (K0 Ks)) all_vars) s in
  s.

End Dcore.

End uncertainty.

(** ** Reading the type codes *)

Module codes.
Import uncertainty.

(** The variable that an input of type [t] is: 1 TA, 2 TC, 3 pH, 4 pCO2,
    5 fCO2, 6 carbonate ion, 7 bicarbonate ion, 8 CO2(aq). *)
Definition var_of_type (t : Z) : option var :=
  match t with
  | 1 => Some TA | 2 => Some TC | 3 => Some PH | 4 => Some PC
  | 5 => Some FC | 6 => Some CARB | 7 => Some HCO3 | 8 => Some CO2
  | _ => None
  end%Z.

(** The core role of an input of type [t]: types 4, 5 and 8 all stand for
    the CO2 fugacity. *)
Definition role (t : Z) : option var :=
  match t with
  | 1 => Some TA | 2 => Some TC | 3 => Some PH
  | 4 | 5 | 8 => Some FC
  | 6 => Some CARB | 7 => Some HCO3
  | _ => None
  end%Z.

(** A valid ordered pair of input types: two distinct core roles. *)
Definition valid_pair (x y : Z) : Prop :=
  exists rx ry, role x = Some rx /\ role y = Some ry /\ rx <> ry.

(** The implicit-function route is taken for a pair of distinct roles,
    neither of them pH, one of which is TA or TC. *)
Definition implicit_route (rx ry : var) : Prop :=
  rx <> PH /\ ry <> PH /\ rx <> ry /\
  (rx = TA \/ rx = TC \/ ry = TA \/ ry = TC).

(** The six core variables. *)
Definition is_core (o : var) : Prop := o <> PC /\ o <> CO2.

(** [d_dPH g held o] is the gradient of [o] with respect to pH at fixed
    [held], as bound in the source under the name [d<o>_dPH__<held>]; the
    gradient of pH itself is 1. *)
Definition d_dPH (g : Grads) (held o : var) : arr fnum :=
  match held, o with
  | (TA | TC | FC | CARB | HCO3), PH => full f1
  | TC, TA => dTA_dPH__TC g
  | TC, FC => dFC_dPH__TC g
  | TC, CARB => dCARB_dPH__TC g
  | TC, HCO3 => dHCO3_dPH__TC g
  | TA, TC => dTC_dPH__TA g
  | TA, FC => dFC_dPH__TA g
  | TA, CARB => dCARB_dPH__TA g
  | TA, HCO3 => dHCO3_dPH__TA g
  | CARB, TC => dTC_dPH__CARB g
  | CARB, TA => dTA_dPH__CARB g
  | CARB, FC => dFC_dPH__CARB g
  | CARB, HCO3 => dHCO3_dPH__CARB g
  | HCO3, TC => dTC_dPH__HCO3 g
  | HCO3, TA => dTA_dPH__HCO3 g
  | HCO3, FC => dFC_dPH__HCO3 g
  | HCO3, CARB => dCARB_dPH__HCO3 g
  | FC, TA => dTA_dPH__FC g
  | FC, TC => dTC_dPH__FC g
  | FC, CARB => dCARB_dPH__FC g
  | FC, HCO3 => dHCO3_dPH__FC g
  | _, _ => full NaN
  end.

End codes.

(** ** The conversion factors as the specification words them *)

Module stated.
Import convert.

Section Stated.
Variables (totals : Totals) (equilibria : Equilibria).

Definition FREEtoTOT : arr fnum :=
  fun i => (f1 + TSO4 totals i / KSO4 equilibria i)%fl.

(** "SWStoTOT = FREEtoTOT + TF/KF" *)
Definition SWStoTOT : arr fnum :=
  fun i => (FREEtoTOT i + TF totals i / KF equilibria i)%fl.

(** "Total: factor = 0; Seawater: factor = log10(SWStoTOT); Free: factor
    = log10(FREEtoTOT); NBS: factor = log10(SWStoTOT / fH)" *)
Definition factor (pHScale : arr Z) : arr fnum :=
  fun i =>
    match pHScale i with
    | 1 => f0
    | 2 => flog10 (SWStoTOT i)
    | 3 => flog10 (FREEtoTOT i)
    | 4 => flog10 (SWStoTOT i / fH equilibria i)%fl
    | _ => NaN
    end%Z.

(** "pH_total = pH_input - factor" *)
Definition pH_total (pH : arr fnum) (pHScale : arr Z) : arr fnum :=
  fun i => (pH i - factor pHScale i)%fl.

End Stated.

End stated.

(** ** The same code over any arithmetic

    The functions above fix the arithmetic to exact real numbers, which
    neither round nor overflow. [pH2allscales] and [dcore_dparX__parY] are
    given here once more with the arithmetic as a parameter, every
    operation at the same place, so that they can also be run on binary64
    numbers. At the exact arithmetic they are the functions above
    ([exact_pH2allscales] and [exact_dcore] below). *)

Record arith : Type := mkArith {
  num : Type;
  nan : num;
  zero : num;
  one : num;
  add : num -> num -> num;
  sub : num -> num -> num;
  mul : num -> num -> num;
  div : num -> num -> num
}.

Definition exact : arith :=
  mkArith fnum NaN f0 f1 fadd fsub fmul fdiv.

(** binary64 numbers with the operations of IEEE 754, rounding to
    nearest even, which are those of numpy's float64 arrays. *)
Definition binary64 : arith :=
  mkArith float PrimFloat.nan PrimFloat.zero PrimFloat.one
          PrimFloat.add PrimFloat.sub PrimFloat.mul PrimFloat.div.

Module anyarith.
Import uncertainty.

Section Code.
Variable A : arith.

Definition amap2 (op : num A -> num A -> num A) (a b : arr (num A))
  : arr (num A) :=
  fun i => op (a i) (b i).

(** *** convert.py *)

Record Totals : Type := mkTotals {
  TSO4 : arr (num A);
  TF : arr (num A)
}.

Record Equilibria : Type := mkEquilibria {
  KSO4 : arr (num A);
  KF : arr (num A);
  fH : arr (num A)
}.

Section Factors.
(** [np.log10] on the numbers of [A]. *)
Variable log10 : num A -> num A.
Variables (totals : Totals) (equilibria : Equilibria).

Definition free2tot : arr (num A) :=
  fun i => add A (one A) (div A (TSO4 totals i) (KSO4 equilibria i)).

Definition free2sws : arr (num A) :=
  fun i =>
    add A (add A (one A) (div A (TSO4 totals i) (KSO4 equilibria i)))
      (div A (TF totals i) (KF equilibria i)).

Definition sws2free : arr (num A) := fun i => div A (one A) (free2sws i).

Definition sws2tot : arr (num A) :=
  fun i => mul A (sws2free i) (free2tot i).

Definition pH2allscales (pH : arr (num A)) (pHScale : arr Z)
  : arr (num A) * arr (num A) * arr (num A) * arr (num A) :=
  let FREEtoTOT := free2tot in
  let SWStoTOT := sws2tot in
  let factor := full (nan A) in
  let factor := where_ (aeq pHScale 1) (full (zero A)) factor in
  let factor :=
    where_ (aeq pHScale 2) (fun i => log10 (SWStoTOT i)) factor in
  let factor :=
    where_ (aeq pHScale 3) (fun i => log10 (FREEtoTOT i)) factor in
  let factor :=
    where_ (aeq pHScale 4)
           (fun i => log10 (div A (SWStoTOT i) (fH equilibria i)))
           factor in
  let pHtot := amap2 (sub A) pH factor in
  let pHNBS :=
    amap2 (add A) pHtot
      (fun i => log10 (div A (SWStoTOT i) (fH equilibria i))) in
  let pHfree := amap2 (add A) pHtot (fun i => log10 (FREEtoTOT i)) in
  let pHsws := amap2 (add A) pHtot (fun i => log10 (SWStoTOT i)) in
  (pHtot, pHsws, pHfree, pHNBS).

End Factors.

(** The four arrays of the returned dictionary. *)
Definition pHtot_of
    (r : arr (num A) * arr (num A) * arr (num A) * arr (num A)) :=
  let '(t, _, _, _) := r in t.
Definition pHsws_of
    (r : arr (num A) * arr (num A) * arr (num A) * arr (num A)) :=
  let '(_, s, _, _) := r in s.
Definition pHfree_of
    (r : arr (num A) * arr (num A) * arr (num A) * arr (num A)) :=
  let '(_, _, f, _) := r in f.
Definition pHNBS_of
    (r : arr (num A) * arr (num A) * arr (num A) * arr (num A)) :=
  let '(_, _, _, n) := r in n.

(** *** uncertainty.py *)

Definition St : Type := var -> arr (num A).

Definition set (v : var) (a : arr (num A)) (s : St) : St :=
  fun w => if var_eqb w v then a else s w.

Definition wheres (c : arr bool) (l : list (var * arr (num A))) (s : St)
  : St :=
  fold_left (fun s va => set (fst va) (where_ c (snd va) (s (fst va))) s) l s.

Definition rescale (c : arr bool) (op : arr (num A) -> arr (num A))
    (vs : list var) (s : St) : St :=
  fold_left (fun s v => set v (where_ c (op (s v)) (s v)) s) vs s.

(** Two states that agree at the index [i]. *)
Definition eq_at (i : nat) (s s' : St) : Prop := forall v, s v i = s' v i.

Record Grads : Type := mkGrads {
  dTA_dPH__TC : arr (num A);
  dFC_dPH__TC : arr (num A);
  dCARB_dPH__TC : arr (num A);
  dHCO3_dPH__TC : arr (num A);
  dTC_dPH__TA : arr (num A);
  dFC_dPH__TA : arr (num A);
  dCARB_dPH__TA : arr (num A);
  dHCO3_dPH__TA : arr (num A);
  dTC_dPH__CARB : arr (num A);
  dTA_dPH__CARB : arr (num A);
  dFC_dPH__CARB : arr (num A);
  dHCO3_dPH__CARB : arr (num A);
  dTC_dPH__HCO3 : arr (num A);
  dTA_dPH__HCO3 : arr (num A);
  dFC_dPH__HCO3 : arr (num A);
  dCARB_dPH__HCO3 : arr (num A);
  dTA_dPH__FC : arr (num A);
  dTC_dPH__FC : arr (num A);
  dCARB_dPH__FC : arr (num A);
  dHCO3_dPH__FC : arr (num A);
  dTC_dTA__PH : arr (num A);
  dFC_dTA__PH : arr (num A);
  dCARB_dTA__PH : arr (num A);
  dHCO3_dTA__PH : arr (num A);
  dTA_dTC__PH : arr (num A);
  dFC_dTC__PH : arr (num A);
  dCARB_dTC__PH : arr (num A);
  dHCO3_dTC__PH : arr (num A);
  dTA_dFC__PH : arr (num A);
  dTC_dFC__PH : arr (num A);
  dCARB_dFC__PH : arr (num A);
  dHCO3_dFC__PH : arr (num A);
  dTA_dFC__CARB : arr (num A);
  dTC_dFC__CARB : arr (num A);
  dPH_dFC__CARB : arr (num A);
  dHCO3_dFC__CARB : arr (num A);
  dTA_dFC__HCO3 : arr (num A);
  dTC_dFC__HCO3 : arr (num A);
  dPH_dFC__HCO3 : arr (num A);
  dCARB_dFC__HCO3 : arr (num A);
  dTA_dCARB__PH : arr (num A);
  dTC_dCARB__PH : arr (num A);
  dFC_dCARB__PH : arr (num A);
  dHCO3_dCARB__PH : arr (num A);
  dTA_dCARB__FC : arr (num A);
  dTC_dCARB__FC : arr (num A);
  dPH_dCARB__FC : arr (num A);
  dHCO3_dCARB__FC : arr (num A);
  dTA_dCARB__HCO3 : arr (num A);
  dTC_dCARB__HCO3 : arr (num A);
  dPH_dCARB__HCO3 : arr (num A);
  dFC_dCARB__HCO3 : arr (num A);
  dTC_dHCO3__PH : arr (num A);
  dTA_dHCO3__PH : arr (num A);
  dFC_dHCO3__PH : arr (num A);
  dCARB_dHCO3__PH : arr (num A);
  dTA_dHCO3__FC : arr (num A);
  dTC_dHCO3__FC : arr (num A);
  dPH_dHCO3__FC : arr (num A);
  dCARB_dHCO3__FC : arr (num A);
  dTA_dHCO3__CARB : arr (num A);
  dTC_dHCO3__CARB : arr (num A);
  dPH_dHCO3__CARB : arr (num A);
  dFC_dHCO3__CARB : arr (num A)
}.

Record Constants : Type := mkConstants {
  K0 : arr (num A);
  FugFac : arr (num A)
}.

Section Dcore.
Variable npts : nat.
Variables parXtype parYtype : arr Z.
Variable Ks : Constants.
Variable g : Grads.

(** [if np_any(c): ...] *)
Definition guard (c : arr bool) (f : St -> St) (s : St) : St :=
  if np_any npts c then f s else s.

(** The statements under [X = ...; if np_any(X):]: the derivative of the
    variable [own] is set to 1 where [X], then for each [(Y, l)] the
    statements [l] under [XY = X & Y; if np_any(XY):]. *)
Definition block (X : arr bool) (own : var)
    (cases : list (arr bool * list (var * arr (num A)))) : St -> St :=
  guard X (fun s =>
    fold_left
      (fun s yl => guard (aand X (fst yl)) (wheres (aand X (fst yl)) (snd yl)) s)
      cases
      (set own (where_ X (full (one A)) (s own)) s)).

(** Derivatives specific to a single case. Each is bound in the source
    under the condition under which it is used below. *)
Definition dPH_dTA__TC : arr (num A) := amap2 (div A) (full (one A)) (dTA_dPH__TC g).
Definition dFC_dTA__TC : arr (num A) := amap2 (div A) (dFC_dPH__TC g) (dTA_dPH__TC g).
Definition dCARB_dTA__TC : arr (num A) := amap2 (div A) (dCARB_dPH__TC g) (dTA_dPH__TC g).
Definition dHCO3_dTA__TC : arr (num A) := amap2 (div A) (dHCO3_dPH__TC g) (dTA_dPH__TC g).
Definition dTC_dTA__FC : arr (num A) := amap2 (div A) (dTC_dPH__FC g) (dTA_dPH__FC g).
Definition dPH_dTA__FC : arr (num A) := amap2 (div A) (full (one A)) (dTA_dPH__FC g).
Definition dCARB_dTA__FC : arr (num A) := amap2 (div A) (dCARB_dPH__FC g) (dTA_dPH__FC g).
Definition dHCO3_dTA__FC : arr (num A) := amap2 (div A) (dHCO3_dPH__FC g) (dTA_dPH__FC g).
Definition dTC_dTA__CARB : arr (num A) := amap2 (div A) (dTC_dPH__CARB g) (dTA_dPH__CARB g).
Definition dPH_dTA__CARB : arr (num A) := amap2 (div A) (full (one A)) (dTA_dPH__CARB g).
Definition dFC_dTA__CARB : arr (num A) := amap2 (div A) (dFC_dPH__CARB g) (dTA_dPH__CARB g).
Definition dHCO3_dTA__CARB : arr (num A) := amap2 (div A) (dHCO3_dPH__CARB g) (dTA_dPH__CARB g).
Definition dTC_dTA__HCO3 : arr (num A) := amap2 (div A) (dTC_dPH__HCO3 g) (dTA_dPH__HCO3 g).
Definition dPH_dTA__HCO3 : arr (num A) := amap2 (div A) (full (one A)) (dTA_dPH__HCO3 g).
Definition dFC_dTA__HCO3 : arr (num A) := amap2 (div A) (dFC_dPH__HCO3 g) (dTA_dPH__HCO3 g).
Definition dCARB_dTA__HCO3 : arr (num A) := amap2 (div A) (dCARB_dPH__HCO3 g) (dTA_dPH__HCO3 g).
Definition dPH_dTC__TA : arr (num A) := amap2 (div A) (full (one A)) (dTC_dPH__TA g).
Definition dFC_dTC__TA : arr (num A) := amap2 (div A) (dFC_dPH__TA g) (dTC_dPH__TA g).
Definition dCARB_dTC__TA : arr (num A) := amap2 (div A) (dCARB_dPH__TA g) (dTC_dPH__TA g).
Definition dHCO3_dTC__TA : arr (num A) := amap2 (div A) (dHCO3_dPH__TA g) (dTC_dPH__TA g).
Definition dTA_dTC__FC : arr (num A) := amap2 (div A) (dTA_dPH__FC g) (dTC_dPH__FC g).
Definition dPH_dTC__FC : arr (num A) := amap2 (div A) (full (one A)) (dTC_dPH__FC g).
Definition dCARB_dTC__FC : arr (num A) := amap2 (div A) (dCARB_dPH__FC g) (dTC_dPH__FC g).
Definition dHCO3_dTC__FC : arr (num A) := amap2 (div A) (dHCO3_dPH__FC g) (dTC_dPH__FC g).
Definition dTA_dTC__CARB : arr (num A) := amap2 (div A) (dTA_dPH__CARB g) (dTC_dPH__CARB g).
Definition dPH_dTC__CARB : arr (num A) := amap2 (div A) (full (one A)) (dTC_dPH__CARB g).
Definition dFC_dTC__CARB : arr (num A) := amap2 (div A) (dFC_dPH__CARB g) (dTC_dPH__CARB g).
Definition dHCO3_dTC__CARB : arr (num A) := amap2 (div A) (dHCO3_dPH__CARB g) (dTC_dPH__CARB g).
Definition dTA_dTC__HCO3 : arr (num A) := amap2 (div A) (dTA_dPH__HCO3 g) (dTC_dPH__HCO3 g).
Definition dPH_dTC__HCO3 : arr (num A) := amap2 (div A) (full (one A)) (dTC_dPH__HCO3 g).
Definition dFC_dTC__HCO3 : arr (num A) := amap2 (div A) (dFC_dPH__HCO3 g) (dTC_dPH__HCO3 g).
Definition dCARB_dTC__HCO3 : arr (num A) := amap2 (div A) (dCARB_dPH__HCO3 g) (dTC_dPH__HCO3 g).
Definition dTC_dFC__TA : arr (num A) := amap2 (div A) (dTC_dPH__TA g) (dFC_dPH__TA g).
Definition dPH_dFC__TA : arr (num A) := amap2 (div A) (full (one A)) (dFC_dPH__TA g).
Definition dCARB_dFC__TA : arr (num A) := amap2 (div A) (dCARB_dPH__TA g) (dFC_dPH__TA g).
Definition dHCO3_dFC__TA : arr (num A) := amap2 (div A) (dHCO3_dPH__TA g) (dFC_dPH__TA g).
Definition dTA_dFC__TC : arr (num A) := amap2 (div A) (dTA_dPH__TC g) (dFC_dPH__TC g).
Definition dPH_dFC__TC : arr (num A) := amap2 (div A) (full (one A)) (dFC_dPH__TC g).
Definition dCARB_dFC__TC : arr (num A) := amap2 (div A) (dCARB_dPH__TC g) (dFC_dPH__TC g).
Definition dHCO3_dFC__TC : arr (num A) := amap2 (div A) (dHCO3_dPH__TC g) (dFC_dPH__TC g).
Definition dTC_dCARB__TA : arr (num A) := amap2 (div A) (dTC_dPH__TA g) (dCARB_dPH__TA g).
Definition dPH_dCARB__TA : arr (num A) := amap2 (div A) (full (one A)) (dCARB_dPH__TA g).
Definition dFC_dCARB__TA : arr (num A) := amap2 (div A) (dFC_dPH__TA g) (dCARB_dPH__TA g).
Definition dHCO3_dCARB__TA : arr (num A) := amap2 (div A) (dHCO3_dPH__TA g) (dCARB_dPH__TA g).
Definition dTA_dCARB__TC : arr (num A) := amap2 (div A) (dTA_dPH__TC g) (dCARB_dPH__TC g).
Definition dPH_dCARB__TC : arr (num A) := amap2 (div A) (full (one A)) (dCARB_dPH__TC g).
Definition dFC_dCARB__TC : arr (num A) := amap2 (div A) (dFC_dPH__TC g) (dCARB_dPH__TC g).
Definition dHCO3_dCARB__TC : arr (num A) := amap2 (div A) (dHCO3_dPH__TC g) (dCARB_dPH__TC g).
Definition dTC_dHCO3__TA : arr (num A) := amap2 (div A) (dTC_dPH__TA g) (dHCO3_dPH__TA g).
Definition dPH_dHCO3__TA : arr (num A) := amap2 (div A) (full (one A)) (dHCO3_dPH__TA g).
Definition dFC_dHCO3__TA : arr (num A) := amap2 (div A) (dFC_dPH__TA g) (dHCO3_dPH__TA g).
Definition dCARB_dHCO3__TA : arr (num A) := amap2 (div A) (dCARB_dPH__TA g) (dHCO3_dPH__TA g).
Definition dTA_dHCO3__TC : arr (num A) := amap2 (div A) (dTA_dPH__TC g) (dHCO3_dPH__TC g).
Definition dPH_dHCO3__TC : arr (num A) := amap2 (div A) (full (one A)) (dHCO3_dPH__TC g).
Definition dFC_dHCO3__TC : arr (num A) := amap2 (div A) (dFC_dPH__TC g) (dHCO3_dPH__TC g).
Definition dCARB_dHCO3__TC : arr (num A) := amap2 (div A) (dCARB_dPH__TC g) (dHCO3_dPH__TC g).

Definition assign_TA : St -> St :=
  block (aeq parXtype 1) TA
    [ (aeq parYtype 2,
        [ (TC, full (zero A));
          (PH, dPH_dTA__TC);
          (FC, dFC_dTA__TC);
          (CARB, dCARB_dTA__TC);
          (HCO3, dHCO3_dTA__TC) ]);
      (aeq parYtype 3,
        [ (TC, dTC_dTA__PH g);
          (PH, full (zero A));
          (FC, dFC_dTA__PH g);
          (CARB, dCARB_dTA__PH g);
          (HCO3, dHCO3_dTA__PH g) ]);
      (isin parYtype [4; 5; 8]%Z,
        [ (TC, dTC_dTA__FC);
          (PH, dPH_dTA__FC);
          (FC, full (zero A));
          (CARB, dCARB_dTA__FC);
          (HCO3, dHCO3_dTA__FC) ]);
      (aeq parYtype 6,
        [ (TC, dTC_dTA__CARB);
          (PH, dPH_dTA__CARB);
          (FC, dFC_dTA__CARB);
          (CARB, full (zero A));
          (HCO3, dHCO3_dTA__CARB) ]);
      (aeq parYtype 7,
        [ (TC, dTC_dTA__HCO3);
          (PH, dPH_dTA__HCO3);
          (FC, dFC_dTA__HCO3);
          (CARB, dCARB_dTA__HCO3);
          (HCO3, full (zero A)) ]) ].

Definition assign_TC : St -> St :=
  block (aeq parXtype 2) TC
    [ (aeq parYtype 1,
        [ (TA, full (zero A));
          (PH, dPH_dTC__TA);
          (FC, dFC_dTC__TA);
          (CARB, dCARB_dTC__TA);
          (HCO3, dHCO3_dTC__TA) ]);
      (aeq parYtype 3,
        [ (TA, dTA_dTC__PH g);
          (PH, full (zero A));
          (FC, dFC_dTC__PH g);
          (CARB, dCARB_dTC__PH g);
          (HCO3, dHCO3_dTC__PH g) ]);
      (isin parYtype [4; 5; 8]%Z,
        [ (TA, dTA_dTC__FC);
          (PH, dPH_dTC__FC);
          (FC, full (zero A));
          (CARB, dCARB_dTC__FC);
          (HCO3, dHCO3_dTC__FC) ]);
      (aeq parYtype 6,
        [ (TA, dTA_dTC__CARB);
          (PH, dPH_dTC__CARB);
          (FC, dFC_dTC__CARB);
          (CARB, full (zero A));
          (HCO3, dHCO3_dTC__CARB) ]);
      (aeq parYtype 7,
        [ (TA, dTA_dTC__HCO3);
          (PH, dPH_dTC__HCO3);
          (FC, dFC_dTC__HCO3);
          (CARB, dCARB_dTC__HCO3);
          (HCO3, full (zero A)) ]) ].

Definition assign_PH : St -> St :=
  block (aeq parXtype 3) PH
    [ (aeq parYtype 1,
        [ (TA, full (zero A));
          (TC, dTC_dPH__TA g);
          (FC, dFC_dPH__TA g);
          (CARB, dCARB_dPH__TA g);
          (HCO3, dHCO3_dPH__TA g) ]);
      (aeq parYtype 2,
        [ (TA, dTA_dPH__TC g);
          (TC, full (zero A));
          (FC, dFC_dPH__TC g);
          (CARB, dCARB_dPH__TC g);
          (HCO3, dHCO3_dPH__TC g) ]);
      (isin parYtype [4; 5; 8]%Z,
        [ (TA, dTA_dPH__FC g);
          (TC, dTC_dPH__FC g);
          (FC, full (zero A));
          (CARB, dCARB_dPH__FC g);
          (HCO3, dHCO3_dPH__FC g) ]);
      (aeq parYtype 6,
        [ (TA, dTA_dPH__CARB g);
          (TC, dTC_dPH__CARB g);
          (FC, dFC_dPH__CARB g);
          (CARB, full (zero A));
          (HCO3, dHCO3_dPH__CARB g) ]);
      (aeq parYtype 7,
        [ (TA, dTA_dPH__HCO3 g);
          (TC, dTC_dPH__HCO3 g);
          (FC, dFC_dPH__HCO3 g);
          (CARB, dCARB_dPH__HCO3 g);
          (HCO3, full (zero A)) ]) ].

Definition assign_FC : St -> St :=
  block (isin parXtype [4; 5; 8]%Z) FC
    [ (aeq parYtype 1,
        [ (TA, full (zero A));
          (TC, dTC_dFC__TA);
          (PH, dPH_dFC__TA);
          (CARB, dCARB_dFC__TA);
          (HCO3, dHCO3_dFC__TA) ]);
      (aeq parYtype 2,
        [ (TA, dTA_dFC__TC);
          (TC, full (zero A));
          (PH, dPH_dFC__TC);
          (CARB, dCARB_dFC__TC);
          (HCO3, dHCO3_dFC__TC) ]);
      (aeq parYtype 3,
        [ (TA, dTA_dFC__PH g);
          (TC, dTC_dFC__PH g);
          (PH, full (zero A));
          (CARB, dCARB_dFC__PH g);
          (HCO3, dHCO3_dFC__PH g) ]);
      (aeq parYtype 6,
        [ (TA, dTA_dFC__CARB g);
          (TC, dTC_dFC__CARB g);
          (PH, dPH_dFC__CARB g);
          (CARB, full (zero A));
          (HCO3, dHCO3_dFC__CARB g) ]);
      (aeq parYtype 7,
        [ (TA, dTA_dFC__HCO3 g);
          (TC, dTC_dFC__HCO3 g);
          (PH, dPH_dFC__HCO3 g);
          (CARB, dCARB_dFC__HCO3 g);
          (HCO3, full (zero A)) ]) ].

Definition assign_CARB : St -> St :=
  block (aeq parXtype 6) CARB
    [ (aeq parYtype 1,
        [ (TA, full (zero A));
          (TC, dTC_dCARB__TA);
          (PH, dPH_dCARB__TA);
          (FC, dFC_dCARB__TA);
          (HCO3, dHCO3_dCARB__TA) ]);
      (aeq parYtype 2,
        [ (TA, dTA_dCARB__TC);
          (TC, full (zero A));
          (PH, dPH_dCARB__TC);
          (FC, dFC_dCARB__TC);
          (HCO3, dHCO3_dCARB__TC) ]);
      (aeq parYtype 3,
        [ (TA, dTA_dCARB__PH g);
          (TC, dTC_dCARB__PH g);
          (PH, full (zero A));
          (FC, dFC_dCARB__PH g);
          (HCO3, dHCO3_dCARB__PH g) ]);
      (isin parYtype [4; 5; 8]%Z,
        [ (TA, dTA_dCARB__FC g);
          (TC, dTC_dCARB__FC g);
          (PH, dPH_dCARB__FC g);
          (FC, full (zero A));
          (HCO3, dHCO3_dCARB__FC g) ]);
      (aeq parYtype 7,
        [ (TA, dTA_dCARB__HCO3 g);
          (TC, dTC_dCARB__HCO3 g);
          (PH, dPH_dCARB__HCO3 g);
          (FC, dFC_dCARB__HCO3 g);
          (HCO3, full (zero A)) ]) ].

Definition assign_HCO3 : St -> St :=
  block (aeq parXtype 7) HCO3
    [ (aeq parYtype 1,
        [ (TA, full (zero A));
          (TC, dTC_dHCO3__TA);
          (PH, dPH_dHCO3__TA);
          (FC, dFC_dHCO3__TA);
          (CARB, dCARB_dHCO3__TA) ]);
      (aeq parYtype 2,
        [ (TA, dTA_dHCO3__TC);
          (TC, full (zero A));
          (PH, dPH_dHCO3__TC);
          (FC, dFC_dHCO3__TC);
          (CARB, dCARB_dHCO3__TC) ]);
      (aeq parYtype 3,
        [ (TA, dTA_dHCO3__PH g);
          (TC, dTC_dHCO3__PH g);
          (PH, full (zero A));
          (FC, dFC_dHCO3__PH g);
          (CARB, dCARB_dHCO3__PH g) ]);
      (isin parYtype [4; 5; 8]%Z,
        [ (TA, dTA_dHCO3__FC g);
          (TC, dTC_dHCO3__FC g);
          (PH, dPH_dHCO3__FC g);
          (FC, full (zero A));
          (CARB, dCARB_dHCO3__FC g) ]);
      (aeq parYtype 6,
        [ (TA, dTA_dHCO3__CARB g);
          (TC, dTC_dHCO3__CARB g);
          (PH, dPH_dHCO3__CARB g);
          (FC, dFC_dHCO3__CARB g);
          (CARB, full (zero A)) ]) ].

Definition all_vars : list var := [TA; TC; PH; PC; FC; CARB; HCO3; CO2].

(** The six core derivatives, before the pCO2 and CO2(aq) updates. *)
Definition core_derivatives : St :=
  (* Preallocate empty arrays for derivatives *)
  let s := fun _ : var => full (nan A) in
  (* Assign derivatives *)
  let s := assign_TA s in
  let s := assign_TC s in
  let s := assign_PH s in
  let s := assign_FC s in
  let s := assign_CARB s in
  let s := assign_HCO3 s in
  s.

Definition dcore_dparX__parY : St :=
  let s := core_derivatives in
  (* Get pCO2 and CO2(aq) derivatives from fCO2 *)
  let s := set PC (amap2 (div A) (s FC) (FugFac Ks)) s in
  let s := set CO2 (amap2 (mul A) (s FC) (K0 Ks)) s in
  (* Update values where parX or parY were pCO2 or CO2(aq); the tests are
   the builtin [any], which on an array is [np_any] *)
  let X := aeq parXtype 4 in
  let s :=
    guard X (rescale X (fun d => amap2 (mul A) d (FugFac Ks)) all_vars) s in
  let X := aeq parXtype 8 in
  let s :=
    guard X (rescale X (fun d => amap2 (div A) d (K0 Ks)) all_vars) s in
  s.

End Dcore.

End Code.

End anyarith.

(** The inputs of the exact functions as inputs of the general ones. *)
Definition any_totals (t : convert.Totals) : anyarith.Totals exact :=
  anyarith.mkTotals exact (convert.TSO4 t) (convert.TF t).

Definition any_equilibria (e : convert.Equilibria)
  : anyarith.Equilibria exact :=
  anyarith.mkEquilibria exact (convert.KSO4 e) (convert.KF e) (convert.fH e).

Definition any_constants (Ks : uncertainty.Constants)
  : anyarith.Constants exact :=
  anyarith.mkConstants exact (uncertainty.K0 Ks) (uncertainty.FugFac Ks).

Definition any_grads (g : uncertainty.Grads) : anyarith.Grads exact :=
  anyarith.mkGrads exact
    (uncertainty.dTA_dPH__TC g) (uncertainty.dFC_dPH__TC g)
    (uncertainty.dCARB_dPH__TC g) (uncertainty.dHCO3_dPH__TC g)
    (uncertainty.dTC_dPH__TA g) (uncertainty.dFC_dPH__TA g)
    (uncertainty.dCARB_dPH__TA g) (uncertainty.dHCO3_dPH__TA g)
    (uncertainty.dTC_dPH__CARB g) (uncertainty.dTA_dPH__CARB g)
    (uncertainty.dFC_dPH__CARB g) (uncertainty.dHCO3_dPH__CARB g)
    (uncertainty.dTC_dPH__HCO3 g) (uncertainty.dTA_dPH__HCO3 g)
    (uncertainty.dFC_dPH__HCO3 g) (uncertainty.dCARB_dPH__HCO3 g)
    (uncertainty.dTA_dPH__FC g) (uncertainty.dTC_dPH__FC g)
    (uncertainty.dCARB_dPH__FC g) (uncertainty.dHCO3_dPH__FC g)
    (uncertainty.dTC_dTA__PH g) (uncertainty.dFC_dTA__PH g)
    (uncertainty.dCARB_dTA__PH g) (uncertainty.dHCO3_dTA__PH g)
    (uncertainty.dTA_dTC__PH g) (uncertainty.dFC_dTC__PH g)
    (uncertainty.dCARB_dTC__PH g) (uncertainty.dHCO3_dTC__PH g)
    (uncertainty.dTA_dFC__PH g) (uncertainty.dTC_dFC__PH g)
    (uncertainty.dCARB_dFC__PH g) (uncertainty.dHCO3_dFC__PH g)
    (uncertainty.dTA_dFC__CARB g) (uncertainty.dTC_dFC__CARB g)
    (uncertainty.dPH_dFC__CARB g) (uncertainty.dHCO3_dFC__CARB g)
    (uncertainty.dTA_dFC__HCO3 g) (uncertainty.dTC_dFC__HCO3 g)
    (uncertainty.dPH_dFC__HCO3 g) (uncertainty.dCARB_dFC__HCO3 g)
    (uncertainty.dTA_dCARB__PH g) (uncertainty.dTC_dCARB__PH g)
    (uncertainty.dFC_dCARB__PH g) (uncertainty.dHCO3_dCARB__PH g)
    (uncertainty.dTA_dCARB__FC g) (uncertainty.dTC_dCARB__FC g)
    (uncertainty.dPH_dCARB__FC g) (uncertainty.dHCO3_dCARB__FC g)
    (uncertainty.dTA_dCARB__HCO3 g) (uncertainty.dTC_dCARB__HCO3 g)
    (uncertainty.dPH_dCARB__HCO3 g) (uncertainty.dFC_dCARB__HCO3 g)
    (uncertainty.dTC_dHCO3__PH g) (uncertainty.dTA_dHCO3__PH g)
    (uncertainty.dFC_dHCO3__PH g) (uncertainty.dCARB_dHCO3__PH g)
    (uncertainty.dTA_dHCO3__FC g) (uncertainty.dTC_dHCO3__FC g)
    (uncertainty.dPH_dHCO3__FC g) (uncertainty.dCARB_dHCO3__FC g)
    (uncertainty.dTA_dHCO3__CARB g) (uncertainty.dTC_dHCO3__CARB g)
    (uncertainty.dPH_dHCO3__CARB g) (uncertainty.dFC_dHCO3__CARB g).

(** ** Sample inputs *)

Module sample.
Import convert.

(** No sulfate, as much fluoride as KF. *)
Definition totals_F : Totals := mkTotals (full (Fin 0)) (full (Fin 1)).

(** A negative sulfate total. *)
Definition totals_neg : Totals := mkTotals (full (Fin (-2))) (full (Fin 2)).

(** Sulfate and fluoride totals of seawater size. *)
Definition totals_sw : Totals := mkTotals (full (Fin 3)) (full (Fin 2)).

Definition equilibria_1 : Equilibria := mkEquilibria (full f1) (full f1) (full f1).

Definition pH8 : arr fnum := full (Fin 8).

(** A value for each gradient, numbered in the order of the record. *)
Definition grads : uncertainty.Grads :=
  uncertainty.mkGrads
    (full (Fin 1)) (full (Fin 2)) (full (Fin 3)) (full (Fin 4))
    (full (Fin 5)) (full (Fin 6)) (full (Fin 7)) (full (Fin 8))
    (full (Fin 9)) (full (Fin 10)) (full (Fin 11)) (full (Fin 12))
    (full (Fin 13)) (full (Fin 14)) (full (Fin 15)) (full (Fin 16))
    (full (Fin 17)) (full (Fin 18)) (full (Fin 19)) (full (Fin 20))
    (full (Fin 21)) (full (Fin 22)) (full (Fin 23)) (full (Fin 24))
    (full (Fin 25)) (full (Fin 26)) (full (Fin 27)) (full (Fin 28))
    (full (Fin 29)) (full (Fin 30)) (full (Fin 31)) (full (Fin 32))
    (full (Fin 33)) (full (Fin 34)) (full (Fin 35)) (full (Fin 36))
    (full (Fin 37)) (full (Fin 38)) (full (Fin 39)) (full (Fin 40))
    (full (Fin 41)) (full (Fin 42)) (full (Fin 43)) (full (Fin 44))
    (full (Fin 45)) (full (Fin 46)) (full (Fin 47)) (full (Fin 48))
    (full (Fin 49)) (full (Fin 50)) (full (Fin 51)) (full (Fin 52))
    (full (Fin 53)) (full (Fin 54)) (full (Fin 55)) (full (Fin 56))
    (full (Fin 57)) (full (Fin 58)) (full (Fin 59)) (full (Fin 60))
    (full (Fin 61)) (full (Fin 62)) (full (Fin 63)) (full (Fin 64)).

Definition Ks : uncertainty.Constants :=
  uncertainty.mkConstants (full (Fin 2)) (full (Fin 3)).

(** A fugacity factor of zero. *)
Definition Ks_zero : uncertainty.Constants :=
  uncertainty.mkConstants (full (Fin 2)) (full (Fin 0)).

(** *** binary64 inputs *)

(** The same value for each gradient, as a binary64 number. *)
Definition grads64 : anyarith.Grads binary64 :=
  anyarith.mkGrads binary64
    (full 1%float) (full 2%float) (full 3%float) (full 4%float)
    (full 5%float) (full 6%float) (full 7%float) (full 8%float)
    (full 9%float) (full 10%float) (full 11%float) (full 12%float)
    (full 13%float) (full 14%float) (full 15%float) (full 16%float)
    (full 17%float) (full 18%float) (full 19%float) (full 20%float)
    (full 21%float) (full 22%float) (full 23%float) (full 24%float)
    (full 25%float) (full 26%float) (full 27%float) (full 28%float)
    (full 29%float) (full 30%float) (full 31%float) (full 32%float)
    (full 33%float) (full 34%float) (full 35%float) (full 36%float)
    (full 37%float) (full 38%float) (full 39%float) (full 40%float)
    (full 41%float) (full 42%float) (full 43%float) (full 44%float)
    (full 45%float) (full 46%float) (full 47%float) (full 48%float)
    (full 49%float) (full 50%float) (full 51%float) (full 52%float)
    (full 53%float) (full 54%float) (full 55%float) (full 56%float)
    (full 57%float) (full 58%float) (full 59%float) (full 60%float)
    (full 61%float) (full 62%float) (full 63%float) (full 64%float).

(** K0 = 0.029 and a fugacity factor of 0.9969, values of the size met in
    seawater. *)
Definition Ks64 : anyarith.Constants binary64 :=
  anyarith.mkConstants binary64 (full 0.029%float) (full 0.9969%float).

(** A batch of two elements: parX is pCO2 (type 4) for the first and
    CO2(aq) (type 8) for the second. *)
Definition types_4_8 : arr Z :=
  fun i => match i with O => 4%Z | _ => 8%Z end.

(** TSO4 = 9 KSO4 and no fluoride: the Free-to-Total ratio is 10. *)
Definition totals64 : anyarith.Totals binary64 :=
  anyarith.mkTotals binary64 (full 9%float) (full 0%float).

Definition equilibria64 : anyarith.Equilibria binary64 :=
  anyarith.mkEquilibria binary64 (full 1%float) (full 1%float) (full 1%float).

Definition pH64 : arr float := full 7.3%float.

End sample.

(** * Properties *)

(** ** Arithmetic of floating-point values *)

Lemma fadd_NaN_r a : (a + NaN)%fl = NaN.
Proof. destruct a; reflexivity. Qed.

Lemma fsub_NaN_l b : (NaN - b)%fl = NaN.
Proof. reflexivity. Qed.

Lemma fdiv_fin x y : y <> 0%R -> (Fin x / Fin y)%fl = Fin (x / y).
Proof. intros H. unfold fdiv. destruct (Req_dec_T y 0); [contradiction|reflexivity]. Qed.

Lemma flog10_pos x : (0 < x)%R -> flog10 (Fin x) = Fin (Rlog10 x).
Proof. intros H. unfold flog10. destruct (Rlt_dec 0 x); [reflexivity|contradiction]. Qed.

Lemma flog10_nonpos x : (x <= 0)%R -> flog10 (Fin x) = NaN.
Proof. intros H. unfold flog10. destruct (Rlt_dec 0 x); [lra|reflexivity]. Qed.

Lemma ln2_pos : (0 < ln 2)%R.
Proof. pose proof ln_lt_2. lra. Qed.

Lemma ln10_pos : (0 < ln 10)%R.
Proof. rewrite <- ln_1. apply ln_increasing; lra. Qed.

Lemma Rlog10_half_neq_2 : Rlog10 (/ 2) <> Rlog10 2.
Proof.
  unfold Rlog10. rewrite ln_Rinv by lra.
  pose proof ln2_pos as H2. pose proof ln10_pos as H10.
  intros H.
  assert (0 < ln 2 / ln 10)%R as Hq by (apply Rdiv_lt_0_compat; assumption).
  unfold Rdiv in *. rewrite <- Ropp_mult_distr_l in H. lra.
Qed.

(** ** pH scales *)

Section Scales.
Import convert.
Variables (totals : Totals) (equilibria : Equilibria).
Variables (pH : arr fnum) (pHScale : arr Z) (i : nat).

Local Abbreviation out := (pH2allscales totals equilibria pH pHScale).

(** The factor that [pH2allscales] subtracts, by scale tag. *)
Lemma pHtot_at :
  pHtot_of out i =
  (pH i -
   match pHScale i with
   | 1 => f0
   | 2 => flog10 (sws2tot totals equilibria i)
   | 3 => flog10 (free2tot totals equilibria i)
   | 4 => flog10 (sws2tot totals equilibria i / fH equilibria i)
   | _ => NaN
   end%Z)%fl.
Proof.
  unfold pH2allscales, pHtot_of, amap2, where_, aeq, full. cbv zeta.
  f_equal.
  destruct (pHScale i) as [|p|p]; try reflexivity.
  do 3 (try destruct p as [p|p|]); reflexivity.
Qed.

Lemma others_at :
  pHsws_of out i
  = (pHtot_of out i + flog10 (sws2tot totals equilibria i))%fl /\
  pHfree_of out i
  = (pHtot_of out i + flog10 (free2tot totals equilibria i))%fl /\
  pHNBS_of out i
  = (pHtot_of out i
     + flog10 (sws2tot totals equilibria i / fH equilibria i))%fl.
Proof. repeat split; reflexivity. Qed.

(** C3, as the code has it: [pH2allscales] computes
    pH_total = pH_input - factor with factor = 0 for Total,
    log10(SWStoTOT) for Seawater, log10(FREEtoTOT) for Free and
    log10(SWStoTOT / fH) for NBS, where FREEtoTOT = 1 + TSO4/KSO4 and
    SWStoTOT = (1 / (FREEtoTOT + TF/KF)) * FREEtoTOT, each operation as
    the code performs it; the other three outputs are pH_total plus the
    corresponding logarithm. *)
Theorem pH2allscales_factors :
  let FREEtoTOT := (f1 + TSO4 totals i / KSO4 equilibria i)%fl in
  let SWStoTOT :=
    (f1 / (FREEtoTOT + TF totals i / KF equilibria i) * FREEtoTOT)%fl in
  let factor :=
    match pHScale i with
    | 1 => f0
    | 2 => flog10 SWStoTOT
    | 3 => flog10 FREEtoTOT
    | 4 => flog10 (SWStoTOT / fH equilibria i)%fl
    | _ => NaN
    end%Z in
  pHtot_of out i = (pH i - factor)%fl /\
  pHsws_of out i = (pHtot_of out i + flog10 SWStoTOT)%fl /\
  pHfree_of out i = (pHtot_of out i + flog10 FREEtoTOT)%fl /\
  pHNBS_of out i =
    (pHtot_of out i + flog10 (SWStoTOT / fH equilibria i))%fl.
Proof.
  cbv zeta.
  split; [rewrite pHtot_at; reflexivity|].
  repeat split; reflexivity.
Qed.

(** C10: for a scale tag outside 1..4 the factor stays not-a-number, and
    so are the four values that [pH2allscales] returns. *)
Theorem pH2allscales_unknown_scale :
  pHScale i <> 1%Z -> pHScale i <> 2%Z ->
  pHScale i <> 3%Z -> pHScale i <> 4%Z ->
  pHtot_of out i = NaN /\ pHsws_of out i = NaN /\
  pHfree_of out i = NaN /\ pHNBS_of out i = NaN.
Proof.
  intros H1 H2 H3 H4.
  assert (pHtot_of out i = NaN) as Ht.
  { rewrite pHtot_at.
    destruct (pHScale i) as [|p|p];
      [destruct (pH i); reflexivity| |destruct (pH i); reflexivity].
    do 3 (try destruct p as [p|p|]); try contradiction;
      destruct (pH i); reflexivity. }
  destruct others_at as (-> & -> & ->). rewrite Ht.
  repeat split; reflexivity.
Qed.

End Scales.

(** C3, as stated, fails: with TSO4 = 0 and TF = KF the code's Seawater
    ratio is 1/2 where the stated FREEtoTOT + TF/KF is 2, and the total pH
    computed from a Seawater-scale pH of 8 differs from the stated one. *)
Lemma stated_SWStoTOT_differs :
  convert.KSO4 sample.equilibria_1 0 = Fin 1 /\
  convert.KF sample.equilibria_1 0 = Fin 1 /\
  convert.fH sample.equilibria_1 0 = Fin 1 /\
  convert.pHtot_of
    (convert.pH2allscales sample.totals_F sample.equilibria_1
       sample.pH8 (full 2%Z)) 0
  <> stated.pH_total sample.totals_F sample.equilibria_1
       sample.pH8 (full 2%Z) 0.
Proof.
  repeat split.
  rewrite pHtot_at.
  unfold stated.pH_total, stated.factor, stated.SWStoTOT, stated.FREEtoTOT.
  cbv [full sample.pH8 sample.totals_F sample.equilibria_1 convert.TSO4
       convert.TF convert.KSO4 convert.KF convert.fH convert.sws2tot
       convert.sws2free convert.free2sws convert.free2tot f1].
  cbv [fadd fmul lift2].
  repeat (rewrite fdiv_fin by lra; cbv [fadd fmul lift2]).
  replace (1 / (1 + 0 / 1 + 1 / 1) * (1 + 0 / 1))%R with (/ 2)%R by lra.
  replace (1 + 0 / 1 + 1 / 1)%R with 2%R by lra.
  rewrite !flog10_pos by lra.
  cbv [fsub lift2]. intros H. injection H as H.
  apply Rlog10_half_neq_2. lra.
Qed.

(** C5, as stated, fails: positive KSO4, KF and fH do not make the scale
    ratios positive. With TSO4 = -2 KSO4 and TF = 2 KF the Seawater ratio
    is -1, its logarithm is not a number, and Total -> Seawater -> Total
    does not give the pH back. *)
Lemma round_trip_fails_for_negative_total :
  convert.KSO4 sample.equilibria_1 0 = Fin 1 /\
  convert.KF sample.equilibria_1 0 = Fin 1 /\
  convert.fH sample.equilibria_1 0 = Fin 1 /\
  convert.pHtot_of
    (convert.pH2allscales sample.totals_neg sample.equilibria_1
       (convert.pHsws_of
          (convert.pH2allscales sample.totals_neg sample.equilibria_1
             sample.pH8 (full 1%Z)))
       (full 2%Z)) 0
  <> sample.pH8 0.
Proof.
  repeat split.
  rewrite pHtot_at.
  destruct (others_at sample.totals_neg sample.equilibria_1
              sample.pH8 (full 1%Z) 0) as (-> & _).
  assert (flog10 (convert.sws2tot sample.totals_neg sample.equilibria_1 0)
          = NaN) as ->.
  { cbv [full sample.totals_neg sample.equilibria_1 convert.TSO4
         convert.TF convert.KSO4 convert.KF convert.sws2tot
         convert.sws2free convert.free2sws convert.free2tot f1].
    cbv [fadd fmul lift2].
    repeat (rewrite fdiv_fin by lra; cbv [fadd fmul lift2]).
    apply flog10_nonpos. lra. }
  rewrite fadd_NaN_r. cbv. discriminate.
Qed.

(** At the exact arithmetic the general [pH2allscales] is the function
    of [convert]. *)
Lemma exact_pH2allscales (totals : convert.Totals)
    (equilibria : convert.Equilibria) (pH : arr fnum) (pHScale : arr Z) :
  anyarith.pH2allscales exact flog10 (any_totals totals)
    (any_equilibria equilibria) pH pHScale
  = convert.pH2allscales totals equilibria pH pHScale.
Proof. reflexivity. Qed.

Section RoundTrip.
Variable A : arith.
Variable log10 : num A -> num A.
Variables (totals : anyarith.Totals A) (equilibria : anyarith.Equilibria A).
Variables (pH : arr (num A)) (i : nat).

Local Abbreviation pH2allscales :=
  (anyarith.pH2allscales A log10 totals equilibria).

(** C5, amended: in any arithmetic, exact or binary64, and for all
    inputs, the Seawater, Free and NBS values returned for a pH given on
    the Total scale are converted back to ((pH - 0) + L) - L, where L is
    the logarithm of the ratio of the scale as the code computes it:
    SWStoTOT = (1 / (1 + TSO4/KSO4 + TF/KF)) * (1 + TSO4/KSO4) for
    Seawater, FREEtoTOT = 1 + TSO4/KSO4 for Free and SWStoTOT / fH for
    NBS. *)
Theorem round_trip_operations :
  let from_total := pH2allscales pH (full 1%Z) in
  let SWStoTOT := anyarith.sws2tot A totals equilibria i in
  let FREEtoTOT := anyarith.free2tot A totals equilibria i in
  let fH := anyarith.fH A equilibria i in
  let back L := sub A (add A (sub A (pH i) (zero A)) L) L in
  anyarith.pHtot_of A
    (pH2allscales (anyarith.pHsws_of A from_total) (full 2%Z)) i
  = back (log10 SWStoTOT) /\
  anyarith.pHtot_of A
    (pH2allscales (anyarith.pHfree_of A from_total) (full 3%Z)) i
  = back (log10 FREEtoTOT) /\
  anyarith.pHtot_of A
    (pH2allscales (anyarith.pHNBS_of A from_total) (full 4%Z)) i
  = back (log10 (div A SWStoTOT fH)).
Proof. cbv zeta. repeat split; reflexivity. Qed.

End RoundTrip.

(** In binary64 the round trip through the Free scale does not give the
    pH back, although every ratio is positive: with TSO4 = 9 KSO4 the
    ratio is 10, and for any [log10] that returns 1 at 10, as
    [np.log10] does, a pH of 7.3 comes back as (7.3 + 1) - 1 =
    7.3000000000000007. *)
Lemma free_round_trip_rounds (log10 : float -> float) :
  log10 10%float = 1%float ->
  let from_total :=
    anyarith.pH2allscales binary64 log10 sample.totals64
      sample.equilibria64 sample.pH64 (full 1%Z) in
  let back :=
    anyarith.pHtot_of binary64
      (anyarith.pH2allscales binary64 log10 sample.totals64
         sample.equilibria64 (anyarith.pHfree_of binary64 from_total)
         (full 3%Z)) 0%nat in
  sample.pH64 0%nat = 7.3%float /\
  back = 7.3000000000000007%float /\
  PrimFloat.eqb back (sample.pH64 0%nat) = false.
Proof.
  intros H. cbv zeta.
  vm_compute. rewrite H. vm_compute.
  repeat split; reflexivity.
Qed.

(** A scale tag of 5 gives four values that are not numbers. *)
Lemma pH2allscales_unknown_scale_witness :
  let out :=
    convert.pH2allscales sample.totals_sw sample.equilibria_1
      sample.pH8 (full 5%Z) in
  convert.pHtot_of out 0 = NaN /\ convert.pHsws_of out 0 = NaN /\
  convert.pHfree_of out 0 = NaN /\ convert.pHNBS_of out 0 = NaN.
Proof.
  apply (pH2allscales_unknown_scale sample.totals_sw sample.equilibria_1
           sample.pH8 (full 5%Z) 0);
    unfold full; discriminate.
Defined.

(** ** Flattening of the inputs *)

Lemma nodup_two (l : list nat) :
  (2 <= List.length (nodup Nat.eq_dec l))%nat <->
  exists x y, In x l /\ In y l /\ x <> y.
Proof.
  split.
  - intros H.
    pose proof (NoDup_nodup Nat.eq_dec l) as Hnd.
    destruct (nodup Nat.eq_dec l) as [|z [|w t]] eqn:E;
      simpl in H; try lia.
    exists z, w. repeat split.
    + apply (nodup_In Nat.eq_dec). rewrite E. simpl. tauto.
    + apply (nodup_In Nat.eq_dec). rewrite E. simpl. tauto.
    + inversion Hnd as [|? ? Hz _]. subst. intros ->. apply Hz. simpl. tauto.
  - intros (x & y & Hx & Hy & Hxy).
    apply (nodup_In Nat.eq_dec) in Hx, Hy.
    destruct (nodup Nat.eq_dec l) as [|z [|w t]]; simpl in *;
      [contradiction| |lia].
    destruct Hx as [<-|[]], Hy as [<-|[]]. contradiction.
Qed.

Section Flatten.
Import convert.
Variables T U : Type.
Variable astype : T -> U.

Lemma assertion_fails_iff (args : list (list T)) :
  (List.length
     (unique (filter (fun n => negb (Nat.eqb n 1)) (sizes args)))
   <=? 1)%nat = false
  <-> mismatched args.
Proof.
  rewrite Nat.leb_gt. unfold unique, lt. rewrite nodup_two. split.
  - intros (x & y & Hx & Hy & Hxy).
    apply filter_In in Hx, Hy. destruct Hx as [Hx Hx1], Hy as [Hy Hy1].
    apply in_map_iff in Hx, Hy.
    destruct Hx as (a & <- & Ha), Hy as (b & <- & Hb).
    apply negb_true_iff, Nat.eqb_neq in Hx1, Hy1.
    exists a, b. tauto.
  - intros (a & b & Ha & Hb & Ha1 & Hb1 & Hab).
    exists (List.length a), (List.length b).
    repeat split; try assumption;
      apply filter_In; (split; [apply in_map; assumption|]);
      apply negb_true_iff, Nat.eqb_neq; assumption.
Qed.

Lemma list_max_In (l : list nat) : l <> [] -> In (list_max l) l.
Proof.
  induction l as [|x [|y t] IH]; intros H; [contradiction| |].
  - simpl. left. lia.
  - change (list_max (x :: y :: t)) with (Nat.max x (list_max (y :: t))).
    destruct (Nat.max_spec x (list_max (y :: t))) as [[_ ->]|[_ ->]].
    + right. apply IH. discriminate.
    + left. reflexivity.
Qed.

(** Where no two sizes other than 1 differ and no argument is empty,
    every argument has size 1 or the largest size. *)
Lemma size_one_or_max (args : list (list T)) :
  ~ mismatched args ->
  Forall (fun a => a <> []) args ->
  forall a, In a args ->
    List.length a = 1%nat \/ List.length a = list_max (sizes args).
Proof.
  intros Hm Hne a Ha.
  destruct (Nat.eq_dec (List.length a) 1) as [|Ha1]; [tauto|right].
  assert (sizes args <> []) as Hs.
  { destruct args; [contradiction|discriminate]. }
  pose proof (list_max_In _ Hs) as Hin.
  apply in_map_iff in Hin. destruct Hin as (b & Hb & Hbin).
  assert (List.length a <= list_max (sizes args))%nat as Hle.
  { pose proof (proj1 (list_max_le (sizes args) _) (le_n _)) as Hall.
    rewrite Forall_forall in Hall. apply Hall.
    apply in_map. assumption. }
  assert (List.length a <> 0%nat) as Ha0.
  { rewrite Forall_forall in Hne. specialize (Hne a Ha).
    destruct a; [contradiction|discriminate]. }
  destruct (Nat.eq_dec (List.length a) (List.length b)) as [E|E];
    [congruence|].
  exfalso. apply Hm. exists a, b. repeat split; try assumption. lia.
Qed.

(** Where no two sizes other than 1 differ, the tuple is not empty and
    it does not hold both an empty array and an array of size 1, every
    argument has size 1 or the largest size. *)
Lemma size_one_or_max_weak (args : list (list T)) :
  ~ mismatched args ->
  args <> [] ->
  ~ (In [] args /\ exists b, In b args /\ List.length b = 1%nat) ->
  forall a, In a args ->
    List.length a = 1%nat \/ List.length a = list_max (sizes args).
Proof.
  intros Hm Hne Hz a Ha.
  destruct (Nat.eq_dec (List.length a) 1) as [|Ha1]; [tauto|right].
  assert (sizes args <> []) as Hs.
  { destruct args; [contradiction|discriminate]. }
  pose proof (list_max_In _ Hs) as Hin.
  apply in_map_iff in Hin. destruct Hin as (b & Hb & Hbin).
  assert (List.length a <= list_max (sizes args))%nat as Hle.
  { pose proof (proj1 (list_max_le (sizes args) _) (le_n _)) as Hall.
    rewrite Forall_forall in Hall. apply Hall.
    apply in_map. assumption. }
  destruct (Nat.eq_dec (List.length a) (List.length b)) as [E|E];
    [congruence|].
  destruct (Nat.eq_dec (List.length b) 1) as [Hb1|Hb1].
  - exfalso. apply Hz. split; [|exists b; tauto].
    assert (List.length a = 0%nat) as H0 by lia.
    destruct a; [assumption|discriminate].
  - exfalso. apply Hm. exists a, b. repeat split; assumption.
Qed.

(** C6, amended: for every tuple, [_flattenfirst] raises its assertion
    error exactly when two sizes other than 1 differ. Otherwise, for a
    tuple that is not empty and does not hold both an empty array and an
    array of size 1, it returns [npts], the largest size, and every
    argument brought to that length, an argument of size 1 being filled
    and any other being converted as it is; on the empty tuple [np.max]
    raises. *)
Theorem flattenfirst_broadcasts (args : list (list T)) :
  (mismatched args <->
   _flattenfirst astype args
   = Raise (AssertionError (Some flatten_msg))) /\
  (~ mismatched args ->
   args <> [] ->
   ~ (In [] args /\ exists b, In b args /\ List.length b = 1%nat) ->
   exists out,
     let npts := list_max (sizes args) in
     _flattenfirst astype args = Ok (out, npts) /\
     Forall (fun o => List.length o = npts) out /\
     Forall2 (broadcast_of astype npts) args out) /\
  (args = [] -> _flattenfirst astype args = Raise ValueError).
Proof.
  pose proof (assertion_fails_iff args) as Hiff.
  unfold _flattenfirst. fold (sizes args).
  destruct (List.length
              (unique (filter (fun n => negb (Nat.eqb n 1)) (sizes args)))
            <=? 1)%nat eqn:E; cbn [assert_ bind].
  - assert (~ mismatched args) as Hm
        by (intros H; apply Hiff in H; discriminate).
    split; [|split].
    + split; [intros H; contradiction|].
      destruct args; cbn [sizes map np_max bind]; discriminate.
    + intros _ Hne Hz.
      assert (np_max (sizes args) = Ok (list_max (sizes args))) as ->.
      { destruct args; [contradiction|reflexivity]. }
      cbn [bind]. eexists. cbv zeta. split; [reflexivity|].
      pose proof (size_one_or_max_weak args Hm Hne Hz) as Hsz.
      set (npts := list_max (sizes args)) in *. clearbody npts.
      clear - Hsz. split.
      * apply Forall_forall. intros o Ho.
        apply in_map_iff in Ho. destruct Ho as (a & <- & Ha).
        destruct (Hsz a Ha) as [H1|H1].
        -- destruct a as [|x [|y t]]; try discriminate.
           apply repeat_length.
        -- destruct a as [|x [|y t]];
             [exact H1|apply repeat_length|].
           rewrite length_map. exact H1.
      * clear Hsz. induction args as [|a args IH]; constructor;
          [|exact IH].
        split.
        -- intros x ->. reflexivity.
        -- intros H1. destruct a as [|x [|y t]];
             [reflexivity|contradiction|reflexivity].
    + intros ->. reflexivity.
  - split; [|split].
    + split; [reflexivity|]. intros _. apply Hiff. reflexivity.
    + intros Hm. exfalso. apply Hm, Hiff. reflexivity.
    + intros ->. discriminate E.
Qed.

End Flatten.

Lemma flattenfirst_broadcasts_witness :
  let args := [[7]; [1; 2; 3]; [4; 5; 6]]%Z in
  exists out,
    let npts := list_max (sizes args) in
    convert._flattenfirst (fun z : Z => z) args = Ok (out, npts) /\
    Forall (fun o => List.length o = npts) out /\
    Forall2 (broadcast_of (fun z : Z => z) npts) args out.
Proof.
  apply (proj1 (proj2 (flattenfirst_broadcasts Z Z (fun z => z)
                         [[7]; [1; 2; 3]; [4; 5; 6]]%Z))).
  - intros (a & b & Ha & Hb & Ha1 & Hb1 & Hab).
    simpl in Ha, Hb.
    destruct Ha as [<-|[<-|[<-|[]]]], Hb as [<-|[<-|[<-|[]]]];
      simpl in *; congruence.
  - discriminate.
  - intros [H _]. simpl in H.
    destruct H as [H|[H|[H|[]]]]; discriminate H.
Defined.

(** What the flattening of that sample is. *)
Lemma flattenfirst_sample :
  convert._flattenfirst (fun z : Z => z) [[7]; [1; 2; 3]; [4; 5; 6]]%Z
  = Ok ([[7; 7; 7]; [1; 2; 3]; [4; 5; 6]]%Z, 3%nat).
Proof. reflexivity. Qed.

Lemma flattenfirst_mismatch_sample :
  convert._flattenfirst (fun z : Z => z) [[1; 2]; [1; 2; 3]]%Z
  = Raise (AssertionError (Some convert.flatten_msg)).
Proof. reflexivity. Qed.

(** C6, as stated, fails on an empty array next to an array of size 1:
    no two sizes other than 1 differ, the call returns, [npts] is 1, and
    the empty array is returned with no element. *)
Lemma flattenfirst_empty_array_not_broadcast :
  let args := [[]; [5]]%Z in
  ~ mismatched args /\
  convert._flattenfirst (fun z : Z => z) args = Ok ([[]; [5]]%Z, 1%nat) /\
  ~ Forall (fun o : list Z => List.length o = 1%nat) [[]; [5]]%Z.
Proof.
  cbv zeta. repeat split.
  - intros (a & b & Ha & Hb & Ha1 & Hb1 & Hab).
    simpl in Ha, Hb.
    destruct Ha as [<-|[<-|[]]], Hb as [<-|[<-|[]]];
      simpl in *; congruence.
  - intros H. inversion H as [|? ? H0 _]. discriminate.
Qed.

(** On the empty tuple the assertion holds and [np.max] raises. *)
Lemma flattenfirst_empty_tuple :
  convert._flattenfirst (fun z : Z => z) [] = Raise ValueError.
Proof. reflexivity. Qed.

(** ** Legacy option codes *)

(** C8: [options_old2new] and [options_new2old] are inverse to each other
    between the legacy codes 1..4 and the pairs of {1, 2} x {1, 2}. *)
Theorem options_codes_bijection :
  (forall k, In k [1; 2; 3; 4]%Z ->
     exists s b,
       In s [1; 2]%Z /\ In b [1; 2]%Z /\
       convert.options_old2new [k] = Ok ([s], [b]) /\
       convert.options_new2old [s] [b] = Ok [k]) /\
  (forall s b, In s [1; 2]%Z -> In b [1; 2]%Z ->
     exists k,
       In k [1; 2; 3; 4]%Z /\
       convert.options_new2old [s] [b] = Ok [k] /\
       convert.options_old2new [k] = Ok ([s], [b])).
Proof.
  split.
  - intros k Hk. simpl in Hk.
    destruct Hk as [<-|[<-|[<-|[<-|[]]]]];
      [exists 1%Z, 1%Z|exists 2%Z, 1%Z|exists 1%Z, 2%Z|exists 2%Z, 2%Z];
      simpl; intuition reflexivity.
  - intros s b Hs Hb. simpl in Hs, Hb.
    destruct Hs as [<-|[<-|[]]]; destruct Hb as [<-|[<-|[]]];
      [exists 1%Z|exists 3%Z|exists 2%Z|exists 4%Z];
      simpl; intuition reflexivity.
Qed.

Lemma options_codes_bijection_witness :
  (exists s b,
     In s [1; 2]%Z /\ In b [1; 2]%Z /\
     convert.options_old2new [3%Z] = Ok ([s], [b]) /\
     convert.options_new2old [s] [b] = Ok [3%Z]) /\
  (exists k,
     In k [1; 2; 3; 4]%Z /\
     convert.options_new2old [2%Z] [1%Z] = Ok [k] /\
     convert.options_old2new [k] = Ok ([2%Z], [1%Z])).
Proof.
  split.
  - apply (proj1 options_codes_bijection 3%Z). simpl. tauto.
  - apply (proj2 options_codes_bijection 2%Z 1%Z); simpl; tauto.
Defined.

(** A code outside 1..4 is not a key of the dictionaries. *)
Lemma options_old2new_unknown_code :
  convert.options_old2new [5%Z] = Raise KeyError.
Proof. reflexivity. Qed.

(** ** Validation of the requested derivatives *)

Section Validation.
Import uncertainty.
Variable gradables : list string.
Variable D : Type.
Variable derivatives : list string -> list string -> D.

Local Abbreviation inputs' := (inputs gradables D derivatives).

(** C9: for [grads_wrt] a single name other than "all", the guard tests
    [grads_of], not [grads_wrt], against the supported inputs: with
    [grads_of] a list, the call raises an [AssertionError] although the
    requested input is supported. *)
Theorem single_name_guard_tests_grads_of (w : string) (l : list string) :
  w <> "all"%string ->
  mem w can_grad_wrt = true ->
  inputs' (Lst l) (Str w) = Raise (AssertionError None).
Proof.
  intros Hw _. apply String.eqb_neq in Hw.
  unfold inputs. rewrite Hw. reflexivity.
Qed.

(** With [grads_wrt] a single name, the call passes the first guard only
    where [grads_of] is itself a single supported input name. *)
Lemma single_name_guard (w : string) (grads_of : pyarg) (r : D) :
  w <> "all"%string ->
  inputs' grads_of (Str w) = Ok r ->
  exists o, grads_of = Str o /\ mem o can_grad_wrt = true.
Proof.
  intros Hw. apply String.eqb_neq in Hw.
  unfold inputs. rewrite Hw.
  destruct grads_of as [o|l]; cbn [py_in orb];
    [|cbn [assert_ bind]; discriminate].
  destruct (mem o can_grad_wrt) eqn:E;
    [eauto|cbn [assert_ bind]; discriminate].
Qed.

(** A list [grads_wrt] with an unsupported name is rejected with the
    message for [grads_wrt], whatever [grads_of] is. *)
Lemma invalid_grads_wrt_list (grads_of : pyarg) (l : list string) :
  all_isin l can_grad_wrt = false ->
  inputs' grads_of (Lst l)
  = Raise (AssertionError (Some "Invalid `grads_wrt` requested."%string)).
Proof. intros H. unfold inputs. simpl. rewrite H. reflexivity. Qed.

(** A list [grads_of] with a name that is not gradable is rejected with
    the message for [grads_of] where [grads_wrt] is "all" or a list of
    supported names. *)
Lemma invalid_grads_of_list (lo lw : list string) :
  all_isin lo gradables = false ->
  all_isin lw can_grad_wrt = true ->
  inputs' (Lst lo) (Lst lw)
  = Raise (AssertionError (Some "Invalid `grads_of` requested."%string))
  /\
  inputs' (Lst lo) (Str "all")
  = Raise (AssertionError (Some "Invalid `grads_of` requested."%string)).
Proof.
  intros Ho Hw. unfold inputs. simpl. rewrite Ho, Hw. split; reflexivity.
Qed.

End Validation.

Lemma single_name_guard_tests_grads_of_witness :
  uncertainty.inputs ["pHout"; "TAlk"]%string unit (fun _ _ => tt)
    (uncertainty.Lst ["pHout"]%string) (uncertainty.Str "SAL")
  = Raise (AssertionError None).
Proof.
  apply (single_name_guard_tests_grads_of ["pHout"; "TAlk"]%string unit
           (fun _ _ => tt) "SAL"%string ["pHout"]%string).
  - discriminate.
  - reflexivity.
Defined.

(** C7 at a single supported name for [grads_wrt] and a list [grads_of]
    with a name that is not gradable: the call is rejected by the first
    guard, whose [AssertionError] carries no message. *)
Lemma invalid_grads_of_without_message :
  uncertainty.inputs ["pHout"; "TAlk"]%string unit (fun _ _ => tt)
    (uncertainty.Lst ["bogus"]%string) (uncertainty.Str "SAL")
  = Raise (AssertionError None).
Proof. reflexivity. Qed.

(** ** Elementwise evaluation of guarded array statements *)

Section Elementwise.
Import uncertainty.
Variables (npts i : nat).
Hypothesis Hi : (i < npts)%nat.

Local Abbreviation eq_at := (uncertainty.eq_at i).

Lemma np_any_false (c : arr bool) : np_any npts c = false -> c i = false.
Proof.
  unfold np_any. intros H.
  destruct (c i) eqn:E; [|reflexivity].
  assert (existsb c (seq 0 npts) = true) as H'.
  { apply existsb_exists. exists i. split; [|exact E].
    apply in_seq. lia. }
  congruence.
Qed.

Lemma wheres_eq_at c l : forall s s',
    eq_at s s' -> eq_at (wheres c l s) (wheres c l s').
Proof.
  unfold wheres. induction l as [|[w a] l IH]; intros s s' H; simpl.
  - exact H.
  - apply IH. intros v. unfold set, where_.
    destruct (var_eqb v w); [|apply H]. simpl.
    destruct (c i); [reflexivity|apply H].
Qed.

Lemma wheres_off c l : forall s, c i = false -> eq_at (wheres c l s) s.
Proof.
  unfold wheres. induction l as [|[w a] l IH]; intros s Hc; simpl.
  - intros v. reflexivity.
  - intros v. rewrite (IH _ Hc v). unfold set, where_. simpl.
    destruct (var_eqb v w) eqn:E; [|reflexivity].
    rewrite Hc. destruct v, w; simpl in E; try discriminate; reflexivity.
Qed.

Lemma guard_wheres_eq_at c l s s' :
  eq_at s s' -> eq_at (guard npts c (wheres c l) s) (wheres c l s').
Proof.
  intros H. unfold guard. destruct (np_any npts c) eqn:E.
  - apply wheres_eq_at, H.
  - intros v. rewrite (wheres_off c l s' (np_any_false c E) v). apply H.
Qed.

Lemma cases_eq_at (X : arr bool)
    (cases : list (arr bool * list (var * arr fnum))) : forall s s',
    eq_at s s' ->
    eq_at
      (fold_left
         (fun s yl =>
            guard npts (aand X (fst yl)) (wheres (aand X (fst yl)) (snd yl)) s)
         cases s)
      (fold_left
         (fun s yl => wheres (aand X (fst yl)) (snd yl) s) cases s').
Proof.
  induction cases as [|[Y l] cases IH]; intros s s' H; simpl.
  - exact H.
  - apply IH. apply guard_wheres_eq_at, H.
Qed.

Lemma cases_off (X : arr bool)
    (cases : list (arr bool * list (var * arr fnum))) : forall s,
    X i = false ->
    eq_at
      (fold_left
         (fun s yl => wheres (aand X (fst yl)) (snd yl) s) cases s) s.
Proof.
  induction cases as [|[Y l] cases IH]; intros s HX; simpl.
  - intros v. reflexivity.
  - intros v. rewrite (IH _ HX v). apply wheres_off.
    unfold aand. rewrite HX. reflexivity.
Qed.

(** At an index of the batch, a block of assignments acts as if none of
    its [np_any] tests were there. *)
Lemma block_at X own cases s v :
  block npts X own cases s v i =
  fold_left (fun s yl => wheres (aand X (fst yl)) (snd yl) s) cases
    (set own (where_ X (full f1) (s own)) s) v i.
Proof.
  unfold block, guard. destruct (np_any npts X) eqn:E.
  - apply cases_eq_at. intros w. reflexivity.
  - pose proof (np_any_false X E) as HX.
    rewrite (cases_off X cases _ HX v).
    unfold set, where_. destruct (var_eqb v own) eqn:Ev; [|reflexivity].
    rewrite HX. destruct v, own; simpl in Ev; try discriminate; reflexivity.
Qed.

Lemma rescale_off c op vs : forall s, c i = false -> eq_at (rescale c op vs s) s.
Proof.
  unfold rescale. induction vs as [|w vs IH]; intros s Hc; simpl.
  - intros v. reflexivity.
  - intros v. rewrite (IH _ Hc v). unfold set, where_.
    destruct (var_eqb v w) eqn:E; [|reflexivity].
    rewrite Hc. destruct v, w; simpl in E; try discriminate; reflexivity.
Qed.

Lemma guard_rescale_at c op vs s v :
  guard npts c (rescale c op vs) s v i = rescale c op vs s v i.
Proof.
  unfold guard. destruct (np_any npts c) eqn:E; [reflexivity|].
  symmetry. apply rescale_off, (np_any_false c E).
Qed.

End Elementwise.

(** Evaluation of one block of assignments, then of the six blocks, at an
    index whose type codes are known. *)
Ltac eval_block Hi Hx Hy :=
  rewrite (block_at _ _ Hi);
  match goal with
  | |- context [fold_left _ _ (uncertainty.set _ _ ?s) _ _] =>
      let S := fresh "S" in
      set (S := s);
      cbv [fold_left uncertainty.wheres uncertainty.set uncertainty.var_eqb
           where_ aand aeq isin full fst snd existsb];
      rewrite ?Hx, ?Hy;
      cbv [Z.eqb Pos.eqb andb orb];
      subst S
  end.

Ltac eval_core Hi Hx Hy :=
  unfold uncertainty.core_derivatives; cbv zeta;
  try (unfold uncertainty.assign_HCO3; eval_block Hi Hx Hy);
  try (unfold uncertainty.assign_CARB; eval_block Hi Hx Hy);
  try (unfold uncertainty.assign_FC; eval_block Hi Hx Hy);
  try (unfold uncertainty.assign_PH; eval_block Hi Hx Hy);
  try (unfold uncertainty.assign_TC; eval_block Hi Hx Hy);
  try (unfold uncertainty.assign_TA; eval_block Hi Hx Hy).

Section Dispatch.
Import uncertainty codes.
Variables (npts : nat) (parXtype parYtype : arr Z).
Variables (Ks : Constants) (g : Grads).
Variable i : nat.
Hypothesis Hi : (i < npts)%nat.

Local Abbreviation core := (core_derivatives npts parXtype parYtype g).
Local Abbreviation dcore := (dcore_dparX__parY npts parXtype parYtype Ks g).

(** The value before the updates for pCO2 and CO2(aq) inputs. *)
Lemma dcore_at v :
  dcore v i =
  let base :=
    match v with
    | PC => (core FC i / FugFac Ks i)%fl
    | CO2 => (core FC i * K0 Ks i)%fl
    | _ => core v i
    end in
  let inner :=
    if Z.eqb (parXtype i) 4 then (base * FugFac Ks i)%fl else base in
  if Z.eqb (parXtype i) 8 then (inner / K0 Ks i)%fl else inner.
Proof.
  unfold dcore_dparX__parY. cbv zeta.
  rewrite (guard_rescale_at _ _ Hi).
  match goal with
  | |- rescale _ _ _ ?s _ _ = _ => set (S := s)
  end.
  assert (forall w, S w i =
                    let base :=
                      match w with
                      | PC => (core FC i / FugFac Ks i)%fl
                      | CO2 => (core FC i * K0 Ks i)%fl
                      | _ => core w i
                      end in
                    if Z.eqb (parXtype i) 4
                    then (base * FugFac Ks i)%fl else base) as HS.
  { intros w. subst S. rewrite (guard_rescale_at _ _ Hi).
    match goal with
    | |- rescale _ _ _ ?s _ _ = _ => set (S := s)
    end.
    destruct w;
      cbv [rescale all_vars fold_left set var_eqb where_ aeq amap2];
      subst S; cbv [set var_eqb amap2]; reflexivity. }
  destruct v;
    cbv [rescale all_vars fold_left set var_eqb where_ aeq amap2];
    rewrite HS; reflexivity.
Qed.

Lemma role_inv t r :
  role t = Some r ->
  (t = 1%Z /\ r = TA) \/ (t = 2%Z /\ r = TC) \/ (t = 3%Z /\ r = PH) \/
  (t = 4%Z /\ r = FC) \/ (t = 5%Z /\ r = FC) \/ (t = 6%Z /\ r = CARB) \/
  (t = 7%Z /\ r = HCO3) \/ (t = 8%Z /\ r = FC).
Proof.
  unfold role. intros H.
  destruct t as [|p|p]; try discriminate.
  do 4 (try destruct p as [p|p|]); try discriminate;
    injection H as <-; tauto.
Qed.

(** C1: on the implicit-function route the derivative of a core output
    [o] with respect to parX at fixed parY is the quotient of the
    gradient of [o] by the gradient of parX, both with respect to pH at
    fixed parY. The returned value is this quotient; where parX is given
    as pCO2 or CO2(aq) the quotient is taken for fCO2 and then carries
    the update of its unit. *)
Theorem implicit_route_is_quotient rx ry o :
  role (parXtype i) = Some rx ->
  role (parYtype i) = Some ry ->
  implicit_route rx ry ->
  is_core o -> o <> rx -> o <> ry ->
  let q := (d_dPH g ry o i / d_dPH g ry rx i)%fl in
  core o i = q /\
  dcore o i =
    if Z.eqb (parXtype i) 4 then (q * FugFac Ks i)%fl
    else if Z.eqb (parXtype i) 8 then (q / K0 Ks i)%fl
    else q.
Proof.
  intros Hrx Hry (HxPH & HyPH & Hxy & Hany) (HoPC & HoCO2) Hox Hoy q.
  assert (core o i = q) as Hq.
  { subst q.
    destruct (role_inv _ _ Hrx) as [H|[H|[H|[H|[H|[H|[H|H]]]]]]];
      destruct H as [Hx ->]; try congruence;
      destruct (role_inv _ _ Hry) as [H|[H|[H|[H|[H|[H|[H|H]]]]]]];
      destruct H as [Hy ->]; try congruence;
      try (exfalso; clear - Hany; intuition discriminate);
      destruct o; try congruence;
      eval_core Hi Hx Hy; reflexivity. }
  split; [exact Hq|].
  rewrite dcore_at. cbv zeta.
  replace (match o with
           | PC => (core FC i / FugFac Ks i)%fl
           | CO2 => (core FC i * K0 Ks i)%fl
           | _ => core o i
           end) with q by (destruct o; congruence).
  destruct (Z.eqb (parXtype i) 4) eqn:E4; [|reflexivity].
  apply Z.eqb_eq in E4. rewrite E4. reflexivity.
Qed.

End Dispatch.

(** ** Instances on a batch of one element *)

Lemma implicit_route_is_quotient_witness :
  let q :=
    (uncertainty.dFC_dPH__TC sample.grads 0%nat
     / uncertainty.dTA_dPH__TC sample.grads 0%nat)%fl in
  uncertainty.core_derivatives 1 (full 1%Z) (full 2%Z) sample.grads
    uncertainty.FC 0%nat = q /\
  uncertainty.dcore_dparX__parY 1 (full 1%Z) (full 2%Z) sample.Ks
    sample.grads uncertainty.FC 0%nat = q.
Proof.
  apply (implicit_route_is_quotient 1 (full 1%Z) (full 2%Z) sample.Ks
           sample.grads 0 (Nat.lt_0_succ 0)
           uncertainty.TA uncertainty.TC uncertainty.FC);
    try reflexivity; try discriminate.
  - unfold codes.implicit_route. repeat split; try discriminate. tauto.
  - split; discriminate.
Defined.

(** With a fugacity factor of zero the derivative of pCO2 with respect to
    a pCO2 input is not a number. *)
Lemma zero_fugacity_factor_gives_nan :
  uncertainty.dcore_dparX__parY 1 (full 4%Z) (full 1%Z)
    sample.Ks_zero sample.grads uncertainty.PC 0%nat = NaN.
Proof.
  rewrite (dcore_at 1 (full 4%Z) (full 1%Z) sample.Ks_zero sample.grads 0
             (Nat.lt_0_succ 0)).
  cbv zeta.
  assert (uncertainty.core_derivatives 1 (full 4%Z) (full 1%Z) sample.grads
            uncertainty.FC 0%nat = f1) as ->.
  { assert (full 4%Z 0%nat = 4%Z) as Hx by reflexivity.
    assert (full 1%Z 0%nat = 1%Z) as Hy by reflexivity.
    pose proof (Nat.lt_0_succ 0) as Hi.
    eval_core Hi Hx Hy. reflexivity. }
  cbv [sample.Ks_zero uncertainty.FugFac full f1 Z.eqb Pos.eqb].
  unfold fdiv. destruct (Req_dec_T 0 0); [reflexivity|contradiction].
Qed.

(** ** The dispatch in any arithmetic *)

Lemma exact_set : anyarith.set exact = uncertainty.set.
Proof. reflexivity. Qed.

Lemma exact_wheres : anyarith.wheres exact = uncertainty.wheres.
Proof. reflexivity. Qed.

Lemma exact_rescale : anyarith.rescale exact = uncertainty.rescale.
Proof. reflexivity. Qed.

Lemma exact_guard npts :
  anyarith.guard exact npts = uncertainty.guard npts.
Proof. reflexivity. Qed.

Lemma exact_block npts :
  anyarith.block exact npts = uncertainty.block npts.
Proof. reflexivity. Qed.

Lemma exact_assign_TA npts X Y g :
  anyarith.assign_TA exact npts X Y (any_grads g)
  = uncertainty.assign_TA npts X Y g.
Proof. reflexivity. Qed.

Lemma exact_assign_TC npts X Y g :
  anyarith.assign_TC exact npts X Y (any_grads g)
  = uncertainty.assign_TC npts X Y g.
Proof. reflexivity. Qed.

Lemma exact_assign_PH npts X Y g :
  anyarith.assign_PH exact npts X Y (any_grads g)
  = uncertainty.assign_PH npts X Y g.
Proof. reflexivity. Qed.

Lemma exact_assign_FC npts X Y g :
  anyarith.assign_FC exact npts X Y (any_grads g)
  = uncertainty.assign_FC npts X Y g.
Proof. reflexivity. Qed.

Lemma exact_assign_CARB npts X Y g :
  anyarith.assign_CARB exact npts X Y (any_grads g)
  = uncertainty.assign_CARB npts X Y g.
Proof. reflexivity. Qed.

Lemma exact_assign_HCO3 npts X Y g :
  anyarith.assign_HCO3 exact npts X Y (any_grads g)
  = uncertainty.assign_HCO3 npts X Y g.
Proof. reflexivity. Qed.

Lemma exact_core npts X Y g :
  anyarith.core_derivatives exact npts X Y (any_grads g)
  = uncertainty.core_derivatives npts X Y g.
Proof.
  unfold anyarith.core_derivatives, uncertainty.core_derivatives. cbv zeta.
  rewrite exact_assign_TA, exact_assign_TC, exact_assign_PH, exact_assign_FC,
    exact_assign_CARB, exact_assign_HCO3.
  reflexivity.
Qed.
(** At the exact arithmetic the general [dcore_dparX__parY] is the
    function of [uncertainty]. *)
Lemma exact_dcore (npts : nat) (parXtype parYtype : arr Z)
    (Ks : uncertainty.Constants) (g : uncertainty.Grads) :
  anyarith.dcore_dparX__parY exact npts parXtype parYtype
    (any_constants Ks) (any_grads g)
  = uncertainty.dcore_dparX__parY npts parXtype parYtype Ks g.
Proof.
  unfold anyarith.dcore_dparX__parY, uncertainty.dcore_dparX__parY. cbv zeta.
  rewrite exact_core, exact_guard, exact_rescale.
  reflexivity.
Qed.

(** ** Elementwise evaluation, in any arithmetic *)

Section AnyElementwise.
Import uncertainty.
Variable A : arith.
Variables (npts i : nat).
Hypothesis Hi : (i < npts)%nat.

Local Abbreviation eq_at := (anyarith.eq_at A i).

Lemma any_wheres_eq_at c l : forall s s',
    eq_at s s' -> eq_at (anyarith.wheres A c l s) (anyarith.wheres A c l s').
Proof.
  unfold anyarith.wheres. induction l as [|[w a] l IH]; intros s s' H; simpl.
  - exact H.
  - apply IH. intros v. unfold anyarith.set, where_.
    destruct (var_eqb v w); [|apply H]. simpl.
    destruct (c i); [reflexivity|apply H].
Qed.

Lemma any_wheres_off c l :
  forall s, c i = false -> eq_at (anyarith.wheres A c l s) s.
Proof.
  unfold anyarith.wheres. induction l as [|[w a] l IH]; intros s Hc; simpl.
  - intros v. reflexivity.
  - intros v. rewrite (IH _ Hc v). unfold anyarith.set, where_. simpl.
    destruct (var_eqb v w) eqn:E; [|reflexivity].
    rewrite Hc. destruct v, w; simpl in E; try discriminate; reflexivity.
Qed.

Lemma any_guard_wheres_eq_at c l s s' :
  eq_at s s' ->
  eq_at (anyarith.guard A npts c (anyarith.wheres A c l) s)
        (anyarith.wheres A c l s').
Proof.
  intros H. unfold anyarith.guard. destruct (np_any npts c) eqn:E.
  - apply any_wheres_eq_at, H.
  - intros v.
    rewrite (any_wheres_off c l s' (np_any_false npts i Hi c E) v). apply H.
Qed.

Lemma any_cases_eq_at (X : arr bool)
    (cases : list (arr bool * list (var * arr (num A)))) : forall s s',
    eq_at s s' ->
    eq_at
      (fold_left
         (fun s yl =>
            anyarith.guard A npts (aand X (fst yl))
              (anyarith.wheres A (aand X (fst yl)) (snd yl)) s)
         cases s)
      (fold_left
         (fun s yl => anyarith.wheres A (aand X (fst yl)) (snd yl) s)
         cases s').
Proof.
  induction cases as [|[Y l] cases IH]; intros s s' H; simpl.
  - exact H.
  - apply IH. apply any_guard_wheres_eq_at, H.
Qed.

Lemma any_cases_off (X : arr bool)
    (cases : list (arr bool * list (var * arr (num A)))) : forall s,
    X i = false ->
    eq_at
      (fold_left
         (fun s yl => anyarith.wheres A (aand X (fst yl)) (snd yl) s)
         cases s) s.
Proof.
  induction cases as [|[Y l] cases IH]; intros s HX; simpl.
  - intros v. reflexivity.
  - intros v. rewrite (IH _ HX v). apply any_wheres_off.
    unfold aand. rewrite HX. reflexivity.
Qed.

(** At an index of the batch, a block of assignments acts as if none of
    its [np_any] tests were there. *)
Lemma any_block_at X own cases s v :
  anyarith.block A npts X own cases s v i =
  fold_left (fun s yl => anyarith.wheres A (aand X (fst yl)) (snd yl) s)
    cases (anyarith.set A own (where_ X (full (one A)) (s own)) s) v i.
Proof.
  unfold anyarith.block, anyarith.guard. destruct (np_any npts X) eqn:E.
  - apply any_cases_eq_at. intros w. reflexivity.
  - pose proof (np_any_false npts i Hi X E) as HX.
    rewrite (any_cases_off X cases _ HX v).
    unfold anyarith.set, where_.
    destruct (var_eqb v own) eqn:Ev; [|reflexivity].
    rewrite HX. destruct v, own; simpl in Ev; try discriminate; reflexivity.
Qed.

Lemma any_rescale_off c op vs :
  forall s, c i = false -> eq_at (anyarith.rescale A c op vs s) s.
Proof.
  unfold anyarith.rescale. induction vs as [|w vs IH]; intros s Hc; simpl.
  - intros v. reflexivity.
  - intros v. rewrite (IH _ Hc v). unfold anyarith.set, where_.
    destruct (var_eqb v w) eqn:E; [|reflexivity].
    rewrite Hc. destruct v, w; simpl in E; try discriminate; reflexivity.
Qed.

Lemma any_guard_rescale_at c op vs s v :
  anyarith.guard A npts c (anyarith.rescale A c op vs) s v i
  = anyarith.rescale A c op vs s v i.
Proof.
  unfold anyarith.guard. destruct (np_any npts c) eqn:E; [reflexivity|].
  symmetry. apply any_rescale_off, (np_any_false npts i Hi c E).
Qed.

End AnyElementwise.

(** Evaluation of one block of assignments, then of the six blocks, at an
    index whose type codes are known. *)
Ltac any_eval_block Hi Hx Hy :=
  rewrite (any_block_at _ _ _ Hi);
  match goal with
  | |- context [fold_left _ _ (anyarith.set _ _ _ ?s) _ _] =>
      let S := fresh "S" in
      set (S := s);
      cbv [fold_left anyarith.wheres anyarith.set uncertainty.var_eqb
           where_ aand aeq isin full fst snd existsb];
      rewrite ?Hx, ?Hy;
      cbv [Z.eqb Pos.eqb andb orb];
      subst S
  end.

Ltac any_eval_core Hi Hx Hy :=
  unfold anyarith.core_derivatives; cbv zeta;
  try (unfold anyarith.assign_HCO3; any_eval_block Hi Hx Hy);
  try (unfold anyarith.assign_CARB; any_eval_block Hi Hx Hy);
  try (unfold anyarith.assign_FC; any_eval_block Hi Hx Hy);
  try (unfold anyarith.assign_PH; any_eval_block Hi Hx Hy);
  try (unfold anyarith.assign_TC; any_eval_block Hi Hx Hy);
  try (unfold anyarith.assign_TA; any_eval_block Hi Hx Hy).

Section AnyDispatch.
Import uncertainty codes.
Variable A : arith.
Variables (npts : nat) (parXtype parYtype : arr Z).
Variables (Ks : anyarith.Constants A) (g : anyarith.Grads A).
Variable i : nat.
Hypothesis Hi : (i < npts)%nat.

Local Abbreviation core :=
  (anyarith.core_derivatives A npts parXtype parYtype g).
Local Abbreviation dcore :=
  (anyarith.dcore_dparX__parY A npts parXtype parYtype Ks g).
Local Abbreviation F := (anyarith.FugFac A Ks i).
Local Abbreviation K := (anyarith.K0 A Ks i).

(** The returned value at an index: the core value, for pCO2 and CO2(aq)
    the fCO2 value over FugFac and times K0, then the update for a parX
    of type 4, then the update for a parX of type 8. *)
Lemma any_dcore_at v :
  dcore v i =
  let base :=
    match v with
    | PC => div A (core FC i) F
    | CO2 => mul A (core FC i) K
    | _ => core v i
    end in
  let inner := if Z.eqb (parXtype i) 4 then mul A base F else base in
  if Z.eqb (parXtype i) 8 then div A inner K else inner.
Proof.
  unfold anyarith.dcore_dparX__parY. cbv zeta.
  rewrite (any_guard_rescale_at _ _ _ Hi).
  match goal with
  | |- anyarith.rescale _ _ _ _ ?s _ _ = _ => set (S := s)
  end.
  assert (forall w, S w i =
                    let base :=
                      match w with
                      | PC => div A (core FC i) F
                      | CO2 => mul A (core FC i) K
                      | _ => core w i
                      end in
                    if Z.eqb (parXtype i) 4 then mul A base F else base)
    as HS.
  { intros w. subst S. rewrite (any_guard_rescale_at _ _ _ Hi).
    match goal with
    | |- anyarith.rescale _ _ _ _ ?s _ _ = _ => set (S := s)
    end.
    destruct w;
      cbv [anyarith.rescale anyarith.all_vars fold_left anyarith.set
           var_eqb where_ aeq anyarith.amap2];
      subst S; cbv [anyarith.set var_eqb anyarith.amap2]; reflexivity. }
  destruct v;
    cbv [anyarith.rescale anyarith.all_vars fold_left anyarith.set
         var_eqb where_ aeq anyarith.amap2];
    rewrite HS; reflexivity.
Qed.

(** C2, amended: in any arithmetic, exact or binary64, for a valid
    ordered pair of input types the returned derivative of the parX
    variable with respect to parX is the constant 1, except that it is
    (1 / FugFac) * FugFac where parX is pCO2 (type 4) and (1 * K0) / K0
    where parX is CO2(aq) (type 8); the returned derivative of the parY
    variable is the constant 0, except that it is 0 * FugFac where parX
    is pCO2, 0 / K0 where parX is CO2(aq), 0 / FugFac where parY is pCO2
    and 0 * K0 where parY is CO2(aq). *)
Theorem own_and_fixed_derivatives vx vy :
  valid_pair (parXtype i) (parYtype i) ->
  var_of_type (parXtype i) = Some vx ->
  var_of_type (parYtype i) = Some vy ->
  dcore vx i =
    (if Z.eqb (parXtype i) 4 then mul A (div A (one A) F) F
     else if Z.eqb (parXtype i) 8 then div A (mul A (one A) K) K
     else one A) /\
  dcore vy i =
    (if Z.eqb (parXtype i) 4 then mul A (zero A) F
     else if Z.eqb (parXtype i) 8 then div A (zero A) K
     else if Z.eqb (parYtype i) 4 then div A (zero A) F
     else if Z.eqb (parYtype i) 8 then mul A (zero A) K
     else zero A).
Proof.
  intros (rx & ry & Hrx & Hry & Hxy) Hvx Hvy.
  destruct (role_inv _ _ Hrx) as [H|[H|[H|[H|[H|[H|[H|H]]]]]]];
    destruct H as [Hx ->];
    destruct (role_inv _ _ Hry) as [H|[H|[H|[H|[H|[H|[H|H]]]]]]];
    destruct H as [Hy ->]; try congruence;
    rewrite Hx in Hvx; rewrite Hy in Hvy;
    injection Hvx as <-; injection Hvy as <-;
    rewrite !any_dcore_at;
    cbv zeta; rewrite ?Hx, ?Hy;
    cbv [Z.eqb Pos.eqb];
    split; any_eval_core Hi Hx Hy; reflexivity.
Qed.

(** C4, amended: in any arithmetic, exact or binary64, and for every
    pair of type codes: where parX is neither pCO2 (type 4) nor CO2(aq)
    (type 8) the returned pCO2 derivative is the returned fCO2 derivative
    divided by FugFac and the returned CO2(aq) derivative is the returned
    fCO2 derivative times K0. Where parX is pCO2 the three returned
    values are c * FugFac, (c / FugFac) * FugFac and (c * K0) * FugFac,
    and where parX is CO2(aq) they are c / K0, (c / FugFac) / K0 and
    (c * K0) / K0, c being the fCO2 derivative before the update. *)
Theorem pCO2_and_CO2aq_from_fCO2 :
  let d := anyarith.dcore_dparX__parY A npts parXtype parYtype Ks g in
  let c := anyarith.core_derivatives A npts parXtype parYtype g FC i in
  let FugFac := anyarith.FugFac A Ks i in
  let K0 := anyarith.K0 A Ks i in
  (parXtype i <> 4%Z -> parXtype i <> 8%Z ->
   d PC i = div A (d FC i) FugFac /\
   d CO2 i = mul A (d FC i) K0) /\
  (parXtype i = 4%Z ->
   d FC i = mul A c FugFac /\
   d PC i = mul A (div A c FugFac) FugFac /\
   d CO2 i = mul A (mul A c K0) FugFac) /\
  (parXtype i = 8%Z ->
   d FC i = div A c K0 /\
   d PC i = div A (div A c FugFac) K0 /\
   d CO2 i = div A (mul A c K0) K0).
Proof.
  cbv zeta. rewrite !any_dcore_at. cbv zeta.
  split; [|split].
  - intros H4 H8. apply Z.eqb_neq in H4, H8. rewrite H4, H8.
    split; reflexivity.
  - intros H4. rewrite H4. repeat split; reflexivity.
  - intros H8. rewrite H8. repeat split; reflexivity.
Qed.

End AnyDispatch.

(** ** Instances in binary64 *)

(** A pCO2 input with TA: the derivatives as the operations that return
    them. *)
Lemma own_and_fixed_derivatives_witness :
  let d :=
    anyarith.dcore_dparX__parY binary64 1 (full 4%Z) (full 1%Z)
      sample.Ks64 sample.grads64 in
  d uncertainty.PC 0%nat = (1 / 0.9969 * 0.9969)%float /\
  d uncertainty.TA 0%nat = (0 * 0.9969)%float.
Proof.
  apply (own_and_fixed_derivatives binary64 1 (full 4%Z) (full 1%Z)
           sample.Ks64 sample.grads64 0 (Nat.lt_0_succ 0)
           uncertainty.PC uncertainty.TA).
  - exists uncertainty.FC, uncertainty.TA.
    repeat split; try reflexivity. discriminate.
  - reflexivity.
  - reflexivity.
Defined.

(** C2, as stated, fails: for parX = pCO2 and a fugacity factor of
    0.9969 the returned derivative of pCO2 with respect to pCO2 is
    (1 / 0.9969) * 0.9969 = 0.99999999999999989 in binary64, not 1. *)
Lemma pCO2_own_derivative_below_one :
  let d :=
    anyarith.dcore_dparX__parY binary64 1 (full 4%Z) (full 1%Z)
      sample.Ks64 sample.grads64 in
  anyarith.FugFac binary64 sample.Ks64 0%nat = 0.9969%float /\
  d uncertainty.PC 0%nat = 0.99999999999999989%float /\
  PrimFloat.ltb (d uncertainty.PC 0%nat) 1%float = true /\
  PrimFloat.eqb (d uncertainty.PC 0%nat) 1%float = false.
Proof. cbv zeta. repeat split; vm_compute; reflexivity. Qed.

(** The second element of a batch, whose parX is CO2(aq). *)
Lemma pCO2_and_CO2aq_from_fCO2_witness :
  let d :=
    anyarith.dcore_dparX__parY binary64 2 sample.types_4_8 (full 1%Z)
      sample.Ks64 sample.grads64 in
  let c :=
    anyarith.core_derivatives binary64 2 sample.types_4_8 (full 1%Z)
      sample.grads64 uncertainty.FC 1%nat in
  d uncertainty.FC 1%nat = (c / 0.029)%float /\
  d uncertainty.PC 1%nat = (c / 0.9969 / 0.029)%float /\
  d uncertainty.CO2 1%nat = (c * 0.029 / 0.029)%float.
Proof.
  apply (pCO2_and_CO2aq_from_fCO2 binary64 2 sample.types_4_8 (full 1%Z)
           sample.Ks64 sample.grads64 1).
  - lia.
  - reflexivity.
Defined.

(** C4, as stated, fails in binary64 after the updates. For parX = pCO2
    with FugFac = 0.9969 the returned pCO2 derivative is
    0.99999999999999989 where the returned fCO2 derivative over FugFac
    is 1; for parX = CO2(aq) with K0 = 0.029 the returned CO2(aq)
    derivative is 1 where the returned fCO2 derivative times K0 is
    0.99999999999999989. *)
Lemma pCO2_and_CO2aq_relations_round :
  let d :=
    anyarith.dcore_dparX__parY binary64 2 sample.types_4_8 (full 1%Z)
      sample.Ks64 sample.grads64 in
  let F := anyarith.FugFac binary64 sample.Ks64 in
  let K0 := anyarith.K0 binary64 sample.Ks64 in
  (d uncertainty.PC 0%nat = 0.99999999999999989%float /\
   (d uncertainty.FC 0%nat / F 0%nat)%float = 1%float /\
   PrimFloat.eqb (d uncertainty.PC 0%nat)
                 (d uncertainty.FC 0%nat / F 0%nat) = false) /\
  (d uncertainty.CO2 1%nat = 1%float /\
   (d uncertainty.FC 1%nat * K0 1%nat)%float = 0.99999999999999989%float /\
   PrimFloat.eqb (d uncertainty.CO2 1%nat)
                 (d uncertainty.FC 1%nat * K0 1%nat) = false).
Proof. cbv zeta. repeat split; vm_compute; reflexivity. Qed.

(** * Further properties of the conversions *)

(** ** The activity coefficient fH *)

(** X3: for temperatures from 271 K to 320 K and salinities from 0 to 50,
    both formulations of fH give a finite, positive value, as the NBS
    conversion needs. *)
Theorem fH_positive_in_seawater_range (TempK Sal : arr fnum) (i : nat)
    (T S : R) :
  TempK i = Fin T -> Sal i = Fin S ->
  (271 <= T <= 320)%R -> (0 <= S <= 50)%R ->
  exists a b,
    convert.fH_PTBO87 TempK Sal i = Fin a /\ (0 < a)%R /\
    convert.fH_TWB82 TempK Sal i = Fin b /\ (0 < b)%R.
Proof.
  intros HT HS HTr HSr.
  unfold convert.fH_PTBO87, convert.fH_TWB82. rewrite HT, HS.
  cbv [fadd fsub fmul lift2].
  assert (0 <= S * S <= 2500)%R as Hu by nra.
  do 2 eexists. split; [reflexivity|]. split; [nra|].
  split; [reflexivity|nra].
Qed.

Lemma fH_positive_in_seawater_range_witness :
  exists a b,
    convert.fH_PTBO87 (full (Fin 283.15)) (full (Fin 35)) 0 = Fin a /\
    (0 < a)%R /\
    convert.fH_TWB82 (full (Fin 283.15)) (full (Fin 35)) 0 = Fin b /\
    (0 < b)%R.
Proof.
  apply (fH_positive_in_seawater_range (full (Fin 283.15)) (full (Fin 35))
           0 283.15 35); try reflexivity; lra.
Defined.

(** ** Legacy option codes on arrays *)

Lemma flattenfirst_equal_length (a b : list Z) :
  List.length a = List.length b ->
  convert._flattenfirst (fun z : Z => z) [a; b]
  = Ok ([a; b], List.length a).
Proof.
  intros H. unfold convert._flattenfirst. fold (sizes [a; b]).
  destruct (List.length
              (convert.unique
                 (filter (fun n => negb (Nat.eqb n 1)) (sizes [a; b])))
            <=? 1)%nat eqn:E.
  - cbn [assert_ bind sizes map convert.np_max list_max fold_right].
    rewrite <- H, Nat.max_0_r, Nat.max_id.
    assert (forall l : list Z,
               List.length l = List.length a ->
               match l with
               | [x] => repeat x (List.length a)
               | _ => map (fun z : Z => z) l
               end = l) as Hid.
    { intros l <-. destruct l as [|x [|y t]]; try reflexivity.
      rewrite map_id. reflexivity. }
    rewrite (Hid a eq_refl), (Hid b (eq_sym H)). reflexivity.
  - apply assertion_fails_iff in E.
    destruct E as (x & y & Hx & Hy & _ & _ & Hxy).
    simpl in Hx, Hy.
    destruct Hx as [<-|[<-|[]]], Hy as [<-|[<-|[]]]; congruence.
Qed.

Lemma options_new2old_equal_length (a b : list Z) :
  List.length a = List.length b ->
  convert.options_new2old a b
  = convert.mapM convert.pair2one (combine a b).
Proof.
  intros H. unfold convert.options_new2old.
  rewrite (flattenfirst_equal_length a b H). reflexivity.
Qed.

Lemma old2new_valid (ks : list Z) :
  Forall (fun k => In k [1; 2; 3; 4]%Z) ks ->
  exists s b,
    convert.options_old2new ks = Ok (s, b) /\
    List.length s = List.length ks /\ List.length b = List.length ks /\
    Forall (fun x => In x [1; 2]%Z) s /\
    Forall (fun x => In x [1; 2]%Z) b /\
    convert.mapM convert.pair2one (combine s b) = Ok ks.
Proof.
  unfold convert.options_old2new.
  induction 1 as [|k ks Hk _ IH].
  - exists [], []. repeat split; constructor.
  - destruct IH as (s & b & E & Hs & Hb & Fs & Fb & Hback).
    destruct (convert.mapM convert.only2KSO4 ks) as [s'|] eqn:Es;
      [|discriminate].
    destruct (convert.mapM convert.only2BORON ks) as [b'|] eqn:Eb;
      [|discriminate].
    cbn [bind] in E. injection E as -> ->.
    simpl in Hk.
    destruct Hk as [<-|[<-|[<-|[<-|[]]]]];
      cbn [convert.mapM convert.only2KSO4 convert.only2BORON bind];
      rewrite Es, Eb; cbn [bind];
      do 2 eexists; (split; [reflexivity|]);
      cbn [List.length combine convert.mapM convert.pair2one bind];
      rewrite Hs, Hb, Hback; cbn [bind];
      repeat split; try reflexivity; constructor; simpl; tauto.
Qed.

Lemma only2KSO4_inv (k : Z) :
  (exists x, convert.only2KSO4 k = Ok x /\ In k [1; 2; 3; 4]%Z) \/
  convert.only2KSO4 k = Raise KeyError.
Proof.
  unfold convert.only2KSO4.
  destruct k as [|p|p]; try (right; reflexivity).
  do 3 (try destruct p as [p|p|]);
    try (right; reflexivity); left; eexists; simpl; split;
    try reflexivity; tauto.
Qed.

Lemma mapM_only2KSO4_ok (ks s : list Z) :
  convert.mapM convert.only2KSO4 ks = Ok s ->
  Forall (fun k => In k [1; 2; 3; 4]%Z) ks.
Proof.
  revert s. induction ks as [|k ks IH]; intros s H; [constructor|].
  cbn [convert.mapM] in H.
  destruct (only2KSO4_inv k) as [(x & Ek & Hk)|Ek]; rewrite Ek in H;
    [|discriminate].
  cbn [bind] in H.
  destruct (convert.mapM convert.only2KSO4 ks) as [s'|]; [|discriminate].
  constructor; [assumption|]. apply (IH s'). reflexivity.
Qed.

Lemma mapM_only2KSO4_error (ks : list Z) (e : exn) :
  convert.mapM convert.only2KSO4 ks = Raise e -> e = KeyError.
Proof.
  induction ks as [|k ks IH]; intros H; [discriminate|].
  cbn [convert.mapM] in H.
  destruct (only2KSO4_inv k) as [(x & Ek & Hk)|Ek]; rewrite Ek in H;
    cbn [bind] in H; [|congruence].
  destruct (convert.mapM convert.only2KSO4 ks) as [s'|e'];
    cbn [bind] in H; [discriminate|].
  injection H as <-. apply IH. reflexivity.
Qed.

(** X7: on an array of legacy codes that are all in 1..4,
    [options_old2new] returns two arrays of the same length with entries
    in {1, 2}; if some code is outside 1..4 it raises [KeyError]. *)
Theorem options_old2new_on_arrays (ks : list Z) :
  (Forall (fun k => In k [1; 2; 3; 4]%Z) ks ->
   exists s b,
     convert.options_old2new ks = Ok (s, b) /\
     List.length s = List.length ks /\ List.length b = List.length ks /\
     Forall (fun x => In x [1; 2]%Z) s /\
     Forall (fun x => In x [1; 2]%Z) b) /\
  (~ Forall (fun k => In k [1; 2; 3; 4]%Z) ks ->
   convert.options_old2new ks = Raise KeyError).
Proof.
  split.
  - intros H. destruct (old2new_valid ks H) as (s & b & ? & ? & ? & ? & ? & _).
    eauto 10.
  - intros H. unfold convert.options_old2new.
    destruct (convert.mapM convert.only2KSO4 ks) as [s|e] eqn:E.
    + exfalso. apply H. exact (mapM_only2KSO4_ok ks s E).
    + rewrite (mapM_only2KSO4_error ks e E). reflexivity.
Qed.

Lemma options_old2new_on_arrays_witness :
  exists s b,
    convert.options_old2new [4; 1; 3]%Z = Ok (s, b) /\
    List.length s = 3%nat /\ List.length b = 3%nat /\
    Forall (fun x => In x [1; 2]%Z) s /\
    Forall (fun x => In x [1; 2]%Z) b.
Proof.
  apply (proj1 (options_old2new_on_arrays [4; 1; 3]%Z)).
  repeat constructor; simpl; tauto.
Defined.

(** X8: on arrays of any length, separating legacy codes that are all in
    1..4 and combining the two arrays again gives the codes back. *)
Theorem options_array_round_trip (ks : list Z) :
  Forall (fun k => In k [1; 2; 3; 4]%Z) ks ->
  (sb <- convert.options_old2new ks ;;
   convert.options_new2old (fst sb) (snd sb)) = Ok ks.
Proof.
  intros H.
  destruct (old2new_valid ks H) as (s & b & -> & Hs & Hb & _ & _ & Hback).
  cbn [bind fst snd].
  rewrite options_new2old_equal_length by congruence.
  exact Hback.
Qed.

Lemma options_array_round_trip_witness :
  (sb <- convert.options_old2new [4; 1; 3; 2; 2]%Z ;;
   convert.options_new2old (fst sb) (snd sb)) = Ok [4; 1; 3; 2; 2]%Z.
Proof.
  apply (options_array_round_trip [4; 1; 3; 2; 2]%Z).
  repeat constructor; simpl; tauto.
Defined.

Lemma new2old_valid (s : list Z) : forall b : list Z,
  List.length s = List.length b ->
  Forall (fun x => In x [1; 2]%Z) s ->
  Forall (fun x => In x [1; 2]%Z) b ->
  exists ks,
    convert.mapM convert.pair2one (combine s b) = Ok ks /\
    Forall (fun k => In k [1; 2; 3; 4]%Z) ks /\
    convert.options_old2new ks = Ok (s, b).
Proof.
  induction s as [|x s IH]; intros [|y b] Hl Fs Fb; try discriminate.
  - exists []. repeat split. constructor.
  - inversion Fs as [|? ? Hx Fs']. inversion Fb as [|? ? Hy Fb']. subst.
    injection Hl as Hl.
    destruct (IH b Hl Fs' Fb') as (ks & E & Fk & Eback).
    unfold convert.options_old2new in Eback.
    destruct (convert.mapM convert.only2KSO4 ks) as [s'|] eqn:Es;
      [|discriminate].
    destruct (convert.mapM convert.only2BORON ks) as [b'|] eqn:Eb;
      [|discriminate].
    cbn [bind] in Eback. injection Eback as -> ->.
    simpl in Hx, Hy.
    destruct Hx as [<-|[<-|[]]], Hy as [<-|[<-|[]]];
      cbn [combine convert.mapM convert.pair2one bind];
      rewrite E; cbn [bind]; eexists; (split; [reflexivity|]);
      (split; [constructor; [simpl; tauto|assumption]|]);
      unfold convert.options_old2new;
      cbn [convert.mapM convert.only2KSO4 convert.only2BORON bind];
      rewrite Es, Eb; reflexivity.
Qed.

Lemma flattenfirst_scalar_left (s0 : Z) (bs : list Z) :
  convert._flattenfirst (fun z : Z => z) [[s0]; bs]
  = Ok ([repeat s0 (Nat.max 1 (List.length bs)); bs],
        Nat.max 1 (List.length bs)).
Proof.
  unfold convert._flattenfirst. fold (sizes [[s0]; bs]).
  destruct (List.length
              (convert.unique
                 (filter (fun n => negb (Nat.eqb n 1)) (sizes [[s0]; bs])))
            <=? 1)%nat eqn:E.
  - cbn [assert_ bind sizes map convert.np_max list_max fold_right
         List.length].
    rewrite Nat.max_0_r.
    assert (match bs with
            | [x] => repeat x (Nat.max 1 (List.length bs))
            | _ => map (fun z : Z => z) bs
            end = bs) as ->.
    { destruct bs as [|x [|y t]]; try reflexivity.
      rewrite map_id. reflexivity. }
    reflexivity.
  - apply assertion_fails_iff in E.
    destruct E as (x & y & Hx & Hy & Hx1 & Hy1 & Hxy).
    simpl in Hx, Hy.
    destruct Hx as [<-|[<-|[]]], Hy as [<-|[<-|[]]];
      simpl in *; congruence.
Qed.

(** X9: two arrays of the same length with entries in {1, 2} are combined
    into legacy codes in 1..4 from which [options_old2new] gives the two
    arrays back; a single KSO4CONSTANT is first repeated to the length of
    the BORON array. *)
Theorem separated_options_round_trip (s0 : Z) (s b : list Z) :
  In s0 [1; 2]%Z ->
  Forall (fun x => In x [1; 2]%Z) s ->
  Forall (fun x => In x [1; 2]%Z) b ->
  (List.length s = List.length b ->
   exists ks,
     convert.options_new2old s b = Ok ks /\
     Forall (fun k => In k [1; 2; 3; 4]%Z) ks /\
     convert.options_old2new ks = Ok (s, b)) /\
  (exists ks,
     convert.options_new2old [s0] b = Ok ks /\
     convert.options_old2new ks = Ok (repeat s0 (List.length b), b)).
Proof.
  intros H0 Fs Fb. split.
  - intros Hl. rewrite (options_new2old_equal_length s b Hl).
    apply new2old_valid; assumption.
  - unfold convert.options_new2old.
    rewrite flattenfirst_scalar_left. cbn [fst].
    destruct b as [|y b].
    + exists []. split; reflexivity.
    + assert (Nat.max 1 (List.length (y :: b)) = List.length (y :: b))
        as -> by (simpl; lia).
      destruct (new2old_valid (repeat s0 (List.length (y :: b))) (y :: b))
        as (ks & E & _ & Eback).
      * apply repeat_length.
      * apply Forall_forall. intros x Hx.
        apply repeat_spec in Hx. subst. assumption.
      * assumption.
      * exists ks. split; assumption.
Qed.

Lemma separated_options_round_trip_witness :
  (List.length [1; 2; 2]%Z = List.length [2; 2; 1]%Z ->
   exists ks,
     convert.options_new2old [1; 2; 2]%Z [2; 2; 1]%Z = Ok ks /\
     Forall (fun k => In k [1; 2; 3; 4]%Z) ks /\
     convert.options_old2new ks = Ok ([1; 2; 2]%Z, [2; 2; 1]%Z)) /\
  (exists ks,
     convert.options_new2old [2%Z] [2; 2; 1]%Z = Ok ks /\
     convert.options_old2new ks
     = Ok (repeat 2%Z (List.length [2; 2; 1]%Z), [2; 2; 1]%Z)).
Proof.
  apply (separated_options_round_trip 2%Z [1; 2; 2]%Z [2; 2; 1]%Z);
    repeat constructor; simpl; tauto.
Defined.

(** X10: two arrays of different lengths, neither of length 1, are
    rejected by [options_new2old] with the assertion error of the
    flattening, before any code is looked up. *)
Theorem options_new2old_length_mismatch (s b : list Z) :
  List.length s <> 1%nat -> List.length b <> 1%nat ->
  List.length s <> List.length b ->
  convert.options_new2old s b
  = Raise (AssertionError (Some convert.flatten_msg)).
Proof.
  intros Hs Hb Hsb. unfold convert.options_new2old, convert._flattenfirst.
  fold (sizes [s; b]).
  assert ((List.length
             (convert.unique
                (filter (fun n => negb (Nat.eqb n 1)) (sizes [s; b])))
           <=? 1)%nat = false) as ->.
  { apply assertion_fails_iff. exists s, b. simpl. tauto. }
  reflexivity.
Qed.

Lemma options_new2old_length_mismatch_witness :
  convert.options_new2old [1; 2]%Z [1; 2; 1]%Z
  = Raise (AssertionError (Some convert.flatten_msg)).
Proof.
  apply (options_new2old_length_mismatch [1; 2]%Z [1; 2; 1]%Z);
    simpl; lia.
Defined.

(** ** Flattening against a known length *)

Section FlattenAfter.
Import convert.
Variables T U : Type.
Variable astype : T -> U.

(** X11: [_flattenafter] raises its assertion error exactly when some
    argument has a size that is neither 1 nor [npts]; otherwise every
    returned array has length [npts], an argument of size 1 being filled
    and any other being converted as it is. This holds for every tuple,
    the empty one and empty arrays included. *)
Theorem flattenafter_broadcasts (args : list (list T)) (npts : nat) :
  ((exists a, In a args /\ List.length a <> 1%nat /\ List.length a <> npts)
   <-> _flattenafter astype args npts
       = Raise (AssertionError (Some flatten_msg))) /\
  ((forall a, In a args -> List.length a = 1%nat \/ List.length a = npts) ->
   exists out,
     _flattenafter astype args npts = Ok out /\
     Forall (fun o => List.length o = npts) out /\
     Forall2 (broadcast_of astype npts) args out).
Proof.
  unfold _flattenafter.
  destruct (forallb (fun n => Nat.eqb n 1 || Nat.eqb n npts)
              (map (@List.length T) args)) eqn:E; cbn [assert_ bind].
  - assert (forall a, In a args ->
                      List.length a = 1%nat \/ List.length a = npts) as Hall.
    { intros a Ha. rewrite forallb_forall in E.
      specialize (E (List.length a) (in_map _ _ _ Ha)).
      apply orb_true_iff in E. rewrite !Nat.eqb_eq in E. exact E. }
    split.
    + split; [|discriminate].
      intros (a & Ha & H1 & Hn). destruct (Hall a Ha); contradiction.
    + intros _. eexists. split; [reflexivity|]. clear E. split.
      * apply Forall_forall. intros o Ho.
        apply in_map_iff in Ho. destruct Ho as (a & <- & Ha).
        destruct (Hall a Ha) as [H1|H1].
        -- destruct a as [|x [|y t]]; try discriminate.
           apply repeat_length.
        -- destruct a as [|x [|y t]];
             [exact H1|apply repeat_length|].
           rewrite length_map. exact H1.
      * clear Hall. induction args as [|a args IH]; constructor;
          [|exact IH].
        split.
        -- intros x ->. reflexivity.
        -- intros H1. destruct a as [|x [|y t]];
             [reflexivity|contradiction|reflexivity].
  - split.
    + split; [reflexivity|]. intros _.
      assert (exists n, In n (map (@List.length T) args) /\
                        (Nat.eqb n 1 || Nat.eqb n npts) = false)
        as (n & Hn & Hf).
      { clear - E. induction (map (@List.length T) args) as [|n l IH];
          [discriminate|].
        cbn [forallb] in E. apply andb_false_iff in E.
        destruct E as [E|E].
        - exists n. simpl. tauto.
        - destruct (IH E) as (m & Hm & Hf). exists m. simpl. tauto. }
      apply in_map_iff in Hn. destruct Hn as (a & <- & Ha).
      apply orb_false_iff in Hf. rewrite !Nat.eqb_neq in Hf.
      exists a. tauto.
    + intros Hall. exfalso.
      assert (forallb (fun n => Nat.eqb n 1 || Nat.eqb n npts)
                (map (@List.length T) args) = true) as E'.
      { apply forallb_forall. intros n Hn.
        apply in_map_iff in Hn. destruct Hn as (a & <- & Ha).
        apply orb_true_iff. rewrite !Nat.eqb_eq. apply Hall, Ha. }
      congruence.
Qed.

(** X12: [_flattentext] accepts and rejects the same tuples as
    [_flattenafter] and returns the same arrays as [_flattenafter] does
    with no conversion of the elements. *)
Theorem flattentext_is_flattenafter (args : list (list T)) (npts : nat) :
  _flattentext args npts = _flattenafter (fun x : T => x) args npts.
Proof.
  unfold _flattentext, _flattenafter.
  destruct (forallb (fun n => Nat.eqb n 1 || Nat.eqb n npts)
              (map (@List.length T) args)); cbn [assert_ bind];
    [|reflexivity].
  f_equal. apply map_ext. intros [|x [|y t]]; try reflexivity.
  rewrite map_id. reflexivity.
Qed.

End FlattenAfter.

(** ** Flattening twice *)

Section FlattenAgain.
Import convert.
Variables T U : Type.
Variable astype : T -> U.

Lemma flattenfirst_ok (args : list (list T)) (out : list (list U))
    (npts : nat) :
  _flattenfirst astype args = Ok (out, npts) ->
  ~ mismatched args /\ args <> [] /\ npts = list_max (sizes args) /\
  out = map (fun arg => match arg with
                        | [x] => repeat (astype x) npts
                        | _ => map astype arg
                        end) args.
Proof.
  unfold _flattenfirst. fold (sizes args). intros H.
  destruct (List.length
              (unique (filter (fun n => negb (Nat.eqb n 1)) (sizes args)))
            <=? 1)%nat eqn:E; cbn [assert_ bind] in H; [|discriminate].
  destruct args as [|a args]; [discriminate|].
  cbn [sizes map np_max bind] in H. injection H as <- <-.
  repeat split; try discriminate.
  intros Hm. apply (assertion_fails_iff T) in Hm. congruence.
Qed.

Lemma broadcast_lengths (args : list (list T)) (npts : nat) :
  (forall a, In a args -> List.length a = 1%nat \/ List.length a = npts) ->
  Forall (fun o => List.length o = npts)
    (map (fun arg => match arg with
                     | [x] => repeat (astype x) npts
                     | _ => map astype arg
                     end) args).
Proof.
  intros Hall. apply Forall_forall. intros o Ho.
  apply in_map_iff in Ho. destruct Ho as (a & <- & Ha).
  destruct (Hall a Ha) as [H1|H1].
  - destruct a as [|x [|y t]]; try discriminate. apply repeat_length.
  - destruct a as [|x [|y t]]; [exact H1|apply repeat_length|].
    rewrite length_map. exact H1.
Qed.

(** X13: the length that [_flattenfirst] returns for a tuple without empty
    arrays is one that [_flattenafter] accepts for the same tuple, and
    [_flattenafter] then returns the same arrays. *)
Theorem flattenafter_agrees_with_flattenfirst (args : list (list T))
    (out : list (list U)) (npts : nat) :
  Forall (fun a => a <> []) args ->
  _flattenfirst astype args = Ok (out, npts) ->
  _flattenafter astype args npts = Ok out.
Proof.
  intros Hnz H.
  destruct (flattenfirst_ok args out npts H) as (Hm & Hne & -> & ->).
  pose proof (size_one_or_max T args Hm Hnz) as Hsz.
  unfold _flattenafter. fold (sizes args).
  assert (forallb
            (fun n => Nat.eqb n 1 || Nat.eqb n (list_max (sizes args)))
            (sizes args) = true) as ->.
  { apply forallb_forall. intros n Hn.
    apply in_map_iff in Hn. destruct Hn as (a & <- & Ha).
    apply orb_true_iff. rewrite !Nat.eqb_eq. apply Hsz, Ha. }
  reflexivity.
Qed.

End FlattenAgain.

Lemma flattenfirst_uniform (V : Type) (out : list (list V)) (n : nat) :
  out <> [] ->
  Forall (fun o => List.length o = n) out ->
  convert._flattenfirst (fun v : V => v) out = Ok (out, n).
Proof.
  intros Hne Hall. rewrite Forall_forall in Hall.
  unfold convert._flattenfirst. fold (sizes out).
  destruct (List.length
              (convert.unique
                 (filter (fun n => negb (Nat.eqb n 1)) (sizes out)))
            <=? 1)%nat eqn:E.
  - cbn [assert_ bind].
    assert (list_max (sizes out) = n) as Hmax.
    { assert (sizes out <> []) as Hs
          by (destruct out; [contradiction|discriminate]).
      pose proof (list_max_In _ Hs) as Hin.
      apply in_map_iff in Hin. destruct Hin as (o & <- & Ho).
      apply Hall, Ho. }
    assert (convert.np_max (sizes out) = Ok n) as ->.
    { destruct out; [contradiction|]. cbn [sizes map convert.np_max].
      f_equal. exact Hmax. }
    cbn [bind]. f_equal. f_equal.
    rewrite <- (map_id out) at 2. apply map_ext_in. intros o Ho.
    specialize (Hall o Ho). destruct o as [|x [|y t]]; try reflexivity.
    + simpl in Hall. subst n. reflexivity.
    + rewrite map_id. reflexivity.
  - apply assertion_fails_iff in E.
    destruct E as (a & b & Ha & Hb & _ & _ & Hab).
    rewrite (Hall a Ha), (Hall b Hb) in Hab. contradiction.
Qed.

(** X14: flattening is idempotent: the arrays that [_flattenfirst] returns
    for a tuple without empty arrays are returned unchanged, with the same
    length, when they are flattened again. *)
Theorem flattenfirst_idempotent (T U : Type) (astype : T -> U)
    (args : list (list T)) (out : list (list U)) (npts : nat) :
  Forall (fun a => a <> []) args ->
  convert._flattenfirst astype args = Ok (out, npts) ->
  convert._flattenfirst (fun u : U => u) out = Ok (out, npts).
Proof.
  intros Hnz H.
  destruct (flattenfirst_ok T U astype args out npts H)
    as (Hm & Hne & -> & ->).
  apply flattenfirst_uniform.
  - destruct args; [contradiction|discriminate].
  - apply broadcast_lengths. apply size_one_or_max; assumption.
Qed.

Lemma flattenafter_broadcasts_witness :
  exists out,
    convert._flattenafter (fun z : Z => z) [[7]; [1; 2; 3]]%Z 3 = Ok out /\
    Forall (fun o => List.length o = 3%nat) out /\
    Forall2 (broadcast_of (fun z : Z => z) 3) [[7]; [1; 2; 3]]%Z out.
Proof.
  apply (proj2 (flattenafter_broadcasts Z Z (fun z => z)
                  [[7]; [1; 2; 3]]%Z 3)).
  intros a [<-|[<-|[]]]; simpl; tauto.
Defined.

Lemma flattenafter_agrees_with_flattenfirst_witness :
  convert._flattenafter (fun z : Z => z) [[7]; [1; 2; 3]]%Z 3
  = Ok [[7; 7; 7]; [1; 2; 3]]%Z.
Proof.
  apply (flattenafter_agrees_with_flattenfirst Z Z (fun z => z)
           [[7]; [1; 2; 3]]%Z [[7; 7; 7]; [1; 2; 3]]%Z 3).
  - repeat constructor; discriminate.
  - reflexivity.
Defined.

Lemma flattenfirst_idempotent_witness :
  convert._flattenfirst (fun z : Z => z) [[7; 7; 7]; [1; 2; 3]]%Z
  = Ok ([[7; 7; 7]; [1; 2; 3]]%Z, 3%nat).
Proof.
  apply (flattenfirst_idempotent Z Z (fun z => z)
           [[7]; [1; 2; 3]]%Z [[7; 7; 7]; [1; 2; 3]]%Z 3).
  - repeat constructor; discriminate.
  - reflexivity.
Defined.

(** * Further properties of the uncertainty engine *)

(** ** What passes the validation *)

Section ValidationPasses.
Import uncertainty.
Variable gradables : list string.
Variable D : Type.
Variable derivatives : list string -> list string -> D.

Local Abbreviation inputs' := (inputs gradables D derivatives).

Lemma mem_In (s : string) (l : list string) : In s l -> mem s l = true.
Proof.
  intros H. apply existsb_exists. exists s. split; [assumption|].
  apply String.eqb_refl.
Qed.

Lemma all_isin_refl (l : list string) : all_isin l l = true.
Proof. apply forallb_forall. intros s Hs. apply mem_In, Hs. Qed.

(** X15: whenever [inputs] returns, the derivatives it has computed are
    with respect to supported inputs only and of gradable outputs only. *)
Theorem inputs_computes_only_validated (grads_of grads_wrt : pyarg) (r : D) :
  inputs' grads_of grads_wrt = Ok r ->
  exists lw lo,
    r = derivatives lw lo /\
    all_isin lw can_grad_wrt = true /\
    all_isin lo gradables = true.
Proof.
  unfold inputs. intros H.
  match type of H with
  | bind ?c _ = _ => destruct c as [lw|] eqn:Ew; [|discriminate]
  end.
  cbn [bind] in H.
  destruct (all_isin lw can_grad_wrt) eqn:Hw; [|discriminate].
  cbn [assert_ bind] in H.
  match type of H with
  | bind ?c _ = _ => destruct c as [lo|] eqn:Eo; [|discriminate]
  end.
  cbn [bind] in H.
  destruct (all_isin lo gradables) eqn:Ho; [|discriminate].
  cbn [assert_ bind] in H. injection H as <-.
  exists lw, lo. repeat split; assumption.
Qed.

(** X16: lists of supported inputs and of gradable outputs pass the
    validation as they are, and "all" stands for every supported input or
    for every gradable output. *)
Theorem inputs_accepts_valid_requests (lo lw : list string) :
  all_isin lw can_grad_wrt = true ->
  all_isin lo gradables = true ->
  inputs' (Lst lo) (Lst lw) = Ok (derivatives lw lo) /\
  inputs' (Lst lo) (Str "all") = Ok (derivatives can_grad_wrt lo) /\
  inputs' (Str "all") (Lst lw) = Ok (derivatives lw gradables) /\
  inputs' (Str "all") (Str "all") = Ok (derivatives can_grad_wrt gradables).
Proof.
  intros Hw Ho. pose proof (all_isin_refl gradables) as Hg.
  unfold inputs.
  cbn [String.eqb Ascii.eqb Bool.eqb orb andb assert_ bind py_in].
  rewrite Hw, Ho, Hg.
  assert (all_isin can_grad_wrt can_grad_wrt = true) as ->
      by apply all_isin_refl.
  repeat split; reflexivity.
Qed.

End ValidationPasses.

Lemma inputs_computes_only_validated_witness :
  exists lw lo,
    (["SAL"], ["pHout"])%string = (lw, lo) /\
    uncertainty.all_isin lw uncertainty.can_grad_wrt = true /\
    uncertainty.all_isin lo ["pHout"; "TAlk"]%string = true.
Proof.
  apply (inputs_computes_only_validated ["pHout"; "TAlk"]%string
           (list string * list string) (fun lw lo => (lw, lo))
           (uncertainty.Lst ["pHout"]%string)
           (uncertainty.Lst ["SAL"]%string)).
  reflexivity.
Defined.

Lemma inputs_accepts_valid_requests_witness :
  let f := uncertainty.inputs ["pHout"; "TAlk"]%string
             (list string * list string) (fun lw lo => (lw, lo)) in
  f (uncertainty.Lst ["pHout"]%string) (uncertainty.Lst ["SAL"]%string)
  = Ok (["SAL"], ["pHout"])%string /\
  f (uncertainty.Lst ["pHout"]%string) (uncertainty.Str "all")
  = Ok (uncertainty.can_grad_wrt, ["pHout"]%string) /\
  f (uncertainty.Str "all") (uncertainty.Lst ["SAL"]%string)
  = Ok (["SAL"], ["pHout"; "TAlk"])%string /\
  f (uncertainty.Str "all") (uncertainty.Str "all")
  = Ok (uncertainty.can_grad_wrt, ["pHout"; "TAlk"]%string).
Proof.
  apply (inputs_accepts_valid_requests ["pHout"; "TAlk"]%string
           (list string * list string) (fun lw lo => (lw, lo))
           ["pHout"]%string ["SAL"]%string);
    reflexivity.
Defined.

(** ** The dispatch, element by element *)

(** Evaluation of every block of assignments in the goal at the index of
    [Hi]; [rw] rewrites what is known of the type codes. *)
Ltac eval_blocks Hi rw :=
  unfold uncertainty.core_derivatives, uncertainty.assign_HCO3,
    uncertainty.assign_CARB, uncertainty.assign_FC, uncertainty.assign_PH,
    uncertainty.assign_TC, uncertainty.assign_TA;
  cbv zeta;
  repeat (rewrite (block_at _ _ Hi);
          match goal with
          | |- context [fold_left _ _ (uncertainty.set _ _ ?s) _ _] =>
              let S := fresh "S" in
              set (S := s);
              cbv [fold_left uncertainty.wheres uncertainty.set
                   uncertainty.var_eqb where_ aand aeq isin full fst snd
                   existsb];
              rw;
              cbv [andb orb];
              subst S
          end).

Section Independence.
Import uncertainty codes.
Variables (npts npts' : nat) (parXtype parXtype' parYtype parYtype' : arr Z).
Variables (Ks : Constants) (g : Grads).
Variable i : nat.
Hypothesis Hi : (i < npts)%nat.
Hypothesis Hi' : (i < npts')%nat.
Hypothesis HX : parXtype i = parXtype' i.
Hypothesis HY : parYtype i = parYtype' i.

Lemma core_batch_independent v :
  core_derivatives npts parXtype parYtype g v i
  = core_derivatives npts' parXtype' parYtype' g v i.
Proof.
  destruct v;
    eval_blocks Hi ltac:(rewrite ?HX, ?HY);
    eval_blocks Hi' ltac:(idtac);
    reflexivity.
Qed.

(** X17: the derivatives returned for an element of a batch depend on the
    batch only through that element: another batch, of another size, with
    the same type codes at that index gives the same values there. *)
Theorem dcore_batch_independent v :
  dcore_dparX__parY npts parXtype parYtype Ks g v i
  = dcore_dparX__parY npts' parXtype' parYtype' Ks g v i.
Proof.
  rewrite (dcore_at npts parXtype parYtype Ks g i Hi).
  rewrite (dcore_at npts' parXtype' parYtype' Ks g i Hi').
  cbv zeta. rewrite !core_batch_independent, HX. reflexivity.
Qed.

End Independence.

Lemma dcore_batch_independent_witness :
  uncertainty.dcore_dparX__parY 1 (full 1%Z) (full 2%Z)
    sample.Ks sample.grads uncertainty.FC 0%nat
  = uncertainty.dcore_dparX__parY 3
      (fun j => match j with O => 1 | _ => 7 end%Z)
      (fun j => match j with O => 2 | _ => 3 end%Z)
      sample.Ks sample.grads uncertainty.FC 0%nat.
Proof.
  apply (dcore_batch_independent 1 3 (full 1%Z)
           (fun j => match j with O => 1 | _ => 7 end%Z)
           (full 2%Z)
           (fun j => match j with O => 2 | _ => 3 end%Z)
           sample.Ks sample.grads 0);
    try reflexivity; lia.
Defined.

Section Unsupported.
Import uncertainty codes.
Variables (npts : nat) (parXtype parYtype : arr Z).
Variables (Ks : Constants) (g : Grads).
Variable i : nat.
Hypothesis Hi : (i < npts)%nat.

Lemma role_none (t : Z) :
  role t = None ->
  Z.eqb t 1 = false /\ Z.eqb t 2 = false /\ Z.eqb t 3 = false /\
  Z.eqb t 4 = false /\ Z.eqb t 5 = false /\ Z.eqb t 6 = false /\
  Z.eqb t 7 = false /\ Z.eqb t 8 = false.
Proof.
  unfold role. intros H.
  destruct t as [|p|p]; [repeat split; reflexivity| |repeat split; reflexivity].
  do 4 (try destruct p as [p|p|]); try discriminate;
    repeat split; reflexivity.
Qed.

(** X18: a type code for parX that is none of 1..8 raises nothing: every
    derivative returned for that element is not a number. *)
Theorem unknown_parX_gives_nan v :
  role (parXtype i) = None ->
  dcore_dparX__parY npts parXtype parYtype Ks g v i = NaN.
Proof.
  intros H.
  destruct (role_none _ H) as (E1 & E2 & E3 & E4 & E5 & E6 & E7 & E8).
  assert (forall w, core_derivatives npts parXtype parYtype g w i = NaN)
    as Hcore.
  { intros w. destruct w;
      eval_blocks Hi
        ltac:(rewrite ?E1, ?E2, ?E3, ?E4, ?E5, ?E6, ?E7, ?E8);
      reflexivity. }
  rewrite (dcore_at npts parXtype parYtype Ks g i Hi). cbv zeta.
  rewrite E4, E8, !Hcore. destruct v; reflexivity.
Qed.

(** X19: where parY has an unknown type code, or names the same variable
    as parX, the derivative of the parX variable is still set to 1 and
    every other core derivative returned is not a number. *)
Theorem unusable_parY_leaves_nan rx o :
  role (parXtype i) = Some rx ->
  role (parYtype i) = None \/ role (parYtype i) = Some rx ->
  is_core o -> o <> rx ->
  core_derivatives npts parXtype parYtype g rx i = f1 /\
  dcore_dparX__parY npts parXtype parYtype Ks g o i = NaN.
Proof.
  intros Hrx HY (HoPC & HoCO2) Hox.
  assert (core_derivatives npts parXtype parYtype g rx i = f1 /\
          core_derivatives npts parXtype parYtype g o i = NaN) as [H1 Ho].
  { destruct HY as [Hn|Hs].
    - destruct (role_none _ Hn) as (E1 & E2 & E3 & E4 & E5 & E6 & E7 & E8).
      destruct (role_inv _ _ Hrx) as [H|[H|[H|[H|[H|[H|[H|H]]]]]]];
        destruct H as [Hx ->];
        destruct o; try congruence;
        split;
        eval_blocks Hi
          ltac:(rewrite ?Hx, ?E1, ?E2, ?E3, ?E4, ?E5, ?E6, ?E7, ?E8;
                cbv [Z.eqb Pos.eqb]);
        reflexivity.
    - destruct (role_inv _ _ Hrx) as [H|[H|[H|[H|[H|[H|[H|H]]]]]]];
        destruct H as [Hx ->];
        destruct (role_inv _ _ Hs) as [H|[H|[H|[H|[H|[H|[H|H]]]]]]];
        destruct H as [Hy Hr]; try discriminate Hr;
        destruct o; try congruence;
        split;
        eval_blocks Hi ltac:(rewrite ?Hx, ?Hy; cbv [Z.eqb Pos.eqb]);
        reflexivity. }
  split; [exact H1|].
  rewrite (dcore_at npts parXtype parYtype Ks g i Hi). cbv zeta.
  replace (match o with
           | PC => (core_derivatives npts parXtype parYtype g FC i
                    / FugFac Ks i)%fl
           | CO2 => (core_derivatives npts parXtype parYtype g FC i
                     * K0 Ks i)%fl
           | _ => core_derivatives npts parXtype parYtype g o i
           end) with NaN by (destruct o; congruence).
  destruct (Z.eqb (parXtype i) 4), (Z.eqb (parXtype i) 8); reflexivity.
Qed.

End Unsupported.

Lemma unknown_parX_gives_nan_witness :
  uncertainty.dcore_dparX__parY 1 (full 9%Z) (full 2%Z)
    sample.Ks sample.grads uncertainty.TA 0%nat = NaN.
Proof.
  apply (unknown_parX_gives_nan 1 (full 9%Z) (full 2%Z) sample.Ks
           sample.grads 0 (Nat.lt_0_succ 0)).
  reflexivity.
Defined.

Lemma unusable_parY_leaves_nan_witness :
  uncertainty.core_derivatives 1 (full 1%Z) (full 1%Z) sample.grads
    uncertainty.TA 0%nat = f1 /\
  uncertainty.dcore_dparX__parY 1 (full 1%Z) (full 1%Z)
    sample.Ks sample.grads uncertainty.PH 0%nat = NaN.
Proof.
  apply (unusable_parY_leaves_nan 1 (full 1%Z) (full 1%Z) sample.Ks
           sample.grads 0 (Nat.lt_0_succ 0) uncertainty.TA uncertainty.PH).
  - reflexivity.
  - right. reflexivity.
  - split; discriminate.
  - discriminate.
Defined.

Section UnitsOfCO2.
Import uncertainty codes.
Variables (npts : nat) (parX4 parX5 parX8 parYtype parYtype' : arr Z).
Variables (Ks : Constants) (g : Grads).
Variable i : nat.
Hypothesis Hi : (i < npts)%nat.
Hypothesis H4 : parX4 i = 4%Z.
Hypothesis H5 : parX5 i = 5%Z.
Hypothesis H8 : parX8 i = 8%Z.

Lemma core_same_for_CO2_inputs v :
  core_derivatives npts parX4 parYtype g v i
  = core_derivatives npts parX5 parYtype g v i /\
  core_derivatives npts parX8 parYtype g v i
  = core_derivatives npts parX5 parYtype g v i.
Proof.
  split; destruct v;
    eval_blocks Hi ltac:(rewrite ?H4, ?H5, ?H8; cbv [Z.eqb Pos.eqb]);
    reflexivity.
Qed.

(** X20: for the same parY, every derivative with respect to a pCO2 input
    (type 4) is the derivative with respect to an fCO2 input (type 5)
    times the fugacity factor, and every derivative with respect to a
    CO2(aq) input (type 8) is that one divided by K0. *)
Theorem CO2_inputs_differ_by_unit v :
  dcore_dparX__parY npts parX4 parYtype Ks g v i
  = (dcore_dparX__parY npts parX5 parYtype Ks g v i * FugFac Ks i)%fl /\
  dcore_dparX__parY npts parX8 parYtype Ks g v i
  = (dcore_dparX__parY npts parX5 parYtype Ks g v i / K0 Ks i)%fl.
Proof.
  rewrite (dcore_at npts parX4 parYtype Ks g i Hi).
  rewrite (dcore_at npts parX5 parYtype Ks g i Hi).
  rewrite (dcore_at npts parX8 parYtype Ks g i Hi).
  cbv zeta. rewrite H4, H5, H8. cbv [Z.eqb Pos.eqb].
  destruct (core_same_for_CO2_inputs v) as [-> ->].
  destruct (core_same_for_CO2_inputs FC) as [-> ->].
  split; reflexivity.
Qed.

End UnitsOfCO2.

Lemma CO2_inputs_differ_by_unit_witness :
  let d t :=
    uncertainty.dcore_dparX__parY 1 (full t) (full 1%Z)
      sample.Ks sample.grads uncertainty.TC 0%nat in
  d 4%Z = (d 5%Z * uncertainty.FugFac sample.Ks 0%nat)%fl /\
  d 8%Z = (d 5%Z / uncertainty.K0 sample.Ks 0%nat)%fl.
Proof.
  apply (CO2_inputs_differ_by_unit 1 (full 4%Z) (full 5%Z) (full 8%Z)
           (full 1%Z) sample.Ks sample.grads 0 (Nat.lt_0_succ 0));
    reflexivity.
Defined.
